(** * flexynesis: the GNNEarly multi-task model

    A shallow embedding of [flexynesis/models/gnn_early.py]: the per-variable
    loss with missing-label masking ([compute_loss]), the uncertainty
    weighting of the task losses ([compute_total_loss]), the training and
    validation steps, model construction, [predict] and [transform].

    Arithmetic is idealised: a tensor element is either not-a-number or a real
    number, so rounding, overflow and infinities are outside the model, while
    the propagation of not-a-number and the masking that depends on it are
    kept.  A one-element tensor is identified with its element.  Python
    exceptions (KeyError, IndexError, ValueError) are the [None] of [option]. *)

From Stdlib Require Import Reals Lra Lia ZArith Ascii String List.
From stdpp Require Import base option list strings gmap pretty sorting.

(** ** Tensor elements *)

Inductive scalar : Type :=
  | NaN : scalar
  | Fin : R -> scalar.

Abbreviation vector := (list scalar).
Abbreviation matrix := (list (list scalar)).

Definition Reqb (a b : R) : bool := if Req_dec_T a b then true else false.
Definition Rltb (a b : R) : bool := if Rlt_dec a b then true else false.
Definition Rleb (a b : R) : bool := if Rle_dec a b then true else false.

Arguments Reqb : simpl never.
Arguments Rltb : simpl never.
Arguments Rleb : simpl never.

Definition isnan (a : scalar) : bool :=
  match a with NaN => true | Fin _ => false end.

Definition lift1 (f : R -> R) (a : scalar) : scalar :=
  match a with NaN => NaN | Fin r => Fin (f r) end.

Definition lift2 (f : R -> R -> R) (a b : scalar) : scalar :=
  match a, b with Fin r, Fin s => Fin (f r s) | _, _ => NaN end.

Definition sadd : scalar -> scalar -> scalar := lift2 Rplus.
Definition ssub : scalar -> scalar -> scalar := lift2 Rminus.
Definition smul : scalar -> scalar -> scalar := lift2 Rmult.
Definition sneg : scalar -> scalar := lift1 Ropp.
Definition sexp : scalar -> scalar := lift1 exp.

(** 0/0 is not-a-number; the other divisions by zero would be infinite and
    are not-a-number here as well. *)
Definition sdiv (a b : scalar) : scalar :=
  match a, b with
  | Fin r, Fin s => if Reqb s 0 then NaN else Fin (r / s)
  | _, _ => NaN
  end.

(** The logarithm of a non-positive number is not finite. *)
Definition slog (a : scalar) : scalar :=
  match a with
  | Fin r => if Rltb 0 r then Fin (ln r) else NaN
  | NaN => NaN
  end.

(** [a != b]: every comparison with not-a-number is unequal. *)
Definition sne (a b : scalar) : bool :=
  match a, b with Fin r, Fin s => negb (Reqb r s) | _, _ => true end.

(** [a >= b]: false as soon as one side is not-a-number. *)
Definition sge (a b : scalar) : bool :=
  match a, b with Fin r, Fin s => Rleb s r | _, _ => false end.

(** Conversion to a 64-bit integer truncates towards zero; the conversion of
    not-a-number is the smallest integer. *)
Definition Rtrunc (r : R) : Z :=
  if Rleb 0 r then Int_part r else (- Int_part (- r))%Z.

Definition long (a : scalar) : Z :=
  match a with Fin r => Rtrunc r | NaN => (- 2 ^ 63)%Z end.

(** ** Python and torch primitives *)

Module py.
(** The builtin [sum]: a left fold with [+] that starts from the integer 0. *)
Definition sum (l : list scalar) : scalar := foldl sadd (Fin 0) l.

(** An insertion-ordered dict with string keys. *)
Definition dict (V : Type) : Type := list (string * V).

Fixpoint get {V} (k : string) (d : dict V) : option V :=
  match d with
  | [] => None
  | (k', v) :: d' => if String.eqb k' k then Some v else get k d'
  end.

(** [d[k] = v] overwrites in place or appends. *)
Fixpoint set {V} (k : string) (v : V) (d : dict V) : dict V :=
  match d with
  | [] => [(k, v)]
  | (k', v') :: d' =>
      if String.eqb k' k then (k, v) :: d' else (k', v') :: set k v d'
  end.

Definition keys {V} (d : dict V) : list string := map fst d.
Definition values {V} (d : dict V) : list V := map snd d.
End py.

Module torch.
Definition isnan (t : vector) : list bool := map isnan t.
Definition ne (t : vector) (c : scalar) : list bool := map (fun a => sne a c) t.
Definition lnot (m : list bool) : list bool := map negb m.
Definition land (m1 m2 : list bool) : list bool := zip_with andb m1 m2.

(** [mask.sum()] *)
Definition mask_sum (m : list bool) : nat := length (filter Is_true m).

(** [t[mask]] along the first dimension; the shapes must agree. *)
Fixpoint select {A} (t : list A) (mask : list bool) : option (list A) :=
  match t, mask with
  | [], [] => Some []
  | a :: t', b :: mask' =>
      r ← select t' mask';
      Some (if b then a :: r else r)
  | _, _ => None
  end.

Definition flatten (t : matrix) : vector := concat t.
Definition float (t : vector) : vector := t.
Definition long (t : vector) : list Z := map long t.

(** [t.mean()]: not-a-number on an empty tensor. *)
Definition mean (t : vector) : scalar :=
  sdiv (py.sum t) (Fin (INR (length t))).
End torch.

Module F.
Definition sq_err (a b : scalar) : scalar :=
  smul (ssub a b) (ssub a b).

(** [F.mse_loss(input, target)] on one-dimensional tensors: the mean of the
    squared differences, a one-element side being broadcast. *)
Definition mse_loss (input target : vector) : option scalar :=
  if decide (length input = length target) then
    Some (torch.mean (zip_with sq_err input target))
  else
    match input, target with
    | [a], _ => Some (torch.mean (map (sq_err a) target))
    | _, [b] => Some (torch.mean (map (fun a => sq_err a b) input))
    | _, _ => None
    end.

Definition logsumexp (row : vector) : scalar :=
  slog (py.sum (map sexp row)).

(** The loss of one sample: minus the log-softmax at the target class. *)
Definition nll (row : vector) (t : Z) : option scalar :=
  if decide (0 <= t)%Z then
    z ← row !! Z.to_nat t;
    Some (ssub (logsumexp row) z)
  else None.

Definition ignore_index : Z := (-100)%Z.

Fixpoint nll_all (input : matrix) (target : list Z) : option vector :=
  match input, target with
  | [], [] => Some []
  | row :: input', t :: target' =>
      rest ← nll_all input' target';
      if decide (t = ignore_index) then Some rest
      else (l ← nll row t; Some (l :: rest))
  | _, _ => None
  end.

(** [F.cross_entropy(input, target)] with class-index targets: the mean of
    the per-sample losses over the targets that are not [ignore_index]; a
    target outside the classes raises. *)
Definition cross_entropy (input : matrix) (target : list Z) : option scalar :=
  ls ← nll_all input target;
  Some (torch.mean ls).
End F.

(** ** The model *)

Record Data : Type := {
  x : matrix;
  edge_index : list (nat * nat);
  y_dict : gmap string scalar
}.

(** A batch is the list of its graphs, in loader order; [batch.y_dict[var]]
    is the tensor of their labels. *)
Abbreviation Batch := (list Data).

Definition batch_y_dict (batch : Batch) (var : string) : option vector :=
  mapM (fun d => y_dict d !! var) batch.

(** [GNNs] and [MLP] come from [flexynesis.modules]; a module is the function
    its current parameters compute, which may depend on the training flag. *)
Record GNNs : Type := {
  gnn_input_dim : nat;
  gnn_hidden_dim : Z;
  gnn_output_dim : nat;
  gnn_act : string;
  gnn_conv : option string;
  gnn_forward : bool -> Batch -> matrix
}.

Record MLP : Type := {
  mlp_input_dim : nat;
  mlp_hidden_dim : nat;
  mlp_output_dim : nat;
  mlp_forward : bool -> matrix -> matrix
}.

Record Config : Type := {
  latent_dim : nat;
  hidden_dim_factor : R;
  supervisor_hidden_dim : nat;
  lr : R;
  activation : string
}.

Record GNNEarly : Type := {
  config : Config;
  target_variables : list string;
  surv_event_var : option string;
  surv_time_var : option string;
  batch_variables : option (list string);
  variables : list string;
  variable_types : gmap string string;
  ann : gmap string vector;
  use_loss_weighting : bool;
  log_vars : gmap string scalar;
  device_type : option string;
  gnn_conv_type : option string;
  encoders : GNNs;
  MLPs : gmap string MLP;
  training : bool
}.

Section losses.
Variable self : GNNEarly.

Definition compute_loss (var : string) (y : vector) (y_hat : matrix)
  : option scalar :=
  ty ← variable_types self !! var;
  if String.eqb ty "numerical" then
    let valid_indices := torch.lnot (torch.isnan y) in
    if (0 <? torch.mask_sum valid_indices)%nat then
      y_hat' ← torch.select y_hat valid_indices;
      y' ← torch.select y valid_indices;
      F.mse_loss (torch.flatten y_hat') (torch.float y')
    else Some (Fin 0)
  else
    let valid_indices :=
      torch.land (torch.ne y (Fin (-1))) (torch.lnot (torch.isnan y)) in
    if (0 <? torch.mask_sum valid_indices)%nat then
      y_hat' ← torch.select y_hat valid_indices;
      y' ← torch.select y valid_indices;
      F.cross_entropy y_hat' (torch.long y')
    else Some (Fin 0).

(** One term of the weighted total: precision * loss + log-variance. *)
Definition weighted_loss (name : string) (loss : scalar) : option scalar :=
  s ← log_vars self !! name;
  Some (sadd (smul (sexp (sneg s)) loss) s).

Definition compute_total_loss (losses : py.dict scalar) : option scalar :=
  if use_loss_weighting self && (1 <? length losses)%nat then
    terms ← mapM (fun '(name, loss) => weighted_loss name loss) losses;
    Some (py.sum terms)
  else
    Some (py.sum (py.values losses)).
End losses.

(** ** Survival loss *)

Module modules.
(** An event occurred where the indicator is a number other than zero. *)
Definition is_event (e : scalar) : bool := sne e (Fin 0) && negb (isnan e).

(** The risk scores of the samples still at risk at time [t]: those whose
    duration is at least [t]. *)
Definition risk_set (samples : list (scalar * scalar * scalar)) (t : scalar)
  : vector :=
  map (fun s => s.1.1) (filter (fun s => Is_true (sge s.1.2 t)) samples).

(** - log (exp risk_i / sum of exp risk_j over the risk set at time_i) *)
Definition partial_likelihood (samples : list (scalar * scalar * scalar))
    (s : scalar * scalar * scalar) : scalar :=
  sneg (slog (sdiv (sexp s.1.1)
                   (py.sum (map sexp (risk_set samples s.1.2))))).

(** Modelled from the spec: [cox_ph_loss] of [flexynesis.modules] is missing
    from the sources.  Section 4.3 gives the loss as the negative log of
    exp(risk_i) over the sum of exp(risk_j) on the risk set at time_i,
    summed over the events only, the risk set being the samples of the batch
    whose time is at least the event time (section 9). *)
Definition cox_ph_loss (risk_scores : matrix) (durations events : vector)
  : scalar :=
  let samples := zip (zip (torch.flatten risk_scores) durations) events in
  py.sum (map (partial_likelihood samples)
              (filter (fun s => Is_true (is_event s.2)) samples)).
End modules.

(** ** Forward pass and the two steps *)

Section steps.
Variable self : GNNEarly.

Definition forward (data : Batch) : gmap string matrix :=
  let embeddings := gnn_forward (encoders self) (training self) data in
  map_fold (fun var mlp outputs =>
              <[var := mlp_forward mlp (training self) embeddings]> outputs)
           ∅ (MLPs self).

(** The body of the loop over [self.variables], shared by both steps. *)
Definition variable_loss (outputs : gmap string matrix) (batch : Batch)
    (var : string) : option scalar :=
  if decide (Some var = surv_event_var self) then
    time_var ← surv_time_var self;
    durations ← batch_y_dict batch time_var;
    events ← batch_y_dict batch var;
    risk_scores ← outputs !! var;
    Some (modules.cox_ph_loss risk_scores durations events)
  else
    y_hat ← outputs !! var;
    y ← batch_y_dict batch var;
    compute_loss self var y y_hat.

Definition step_losses (batch : Batch) : option (py.dict scalar) :=
  let outputs := forward batch in
  foldl (fun acc var =>
           losses ← acc;
           loss ← variable_loss outputs batch var;
           Some (py.set var loss losses))
        (Some []) (variables self).

(** Both steps return the total loss together with the dict they log. *)
Definition training_step (batch : Batch)
  : option (scalar * py.dict scalar) :=
  losses ← step_losses batch;
  total_loss ← compute_total_loss self losses;
  Some (total_loss, py.set "train_loss" total_loss losses).

Definition validation_step (batch : Batch)
  : option (scalar * py.dict scalar) :=
  losses ← step_losses batch;
  let total_loss := py.sum (py.values losses) in
  Some (total_loss, py.set "val_loss" total_loss losses).
End steps.

(** ** Construction *)

Module np.
Definition scalar_le (a b : scalar) : Prop :=
  match a, b with
  | Fin r, Fin s => (r <= s)%R
  | _, NaN => True
  | NaN, Fin _ => False
  end.

#[global] Instance scalar_eq_dec : EqDecision scalar.
Proof.
  intros [|r] [|s]; try (right; discriminate); [left; reflexivity|].
  destruct (Req_dec_T r s) as [->|Hne]; [left; reflexivity|].
  right; intros [= ?]; contradiction.
Defined.

#[global] Instance scalar_le_dec (a b : scalar) : Decision (scalar_le a b).
Proof.
  destruct a as [|r], b as [|s]; simpl;
    [left; exact I | right; tauto | left; exact I | apply Rle_dec].
Defined.

(** [np.unique]: the sorted distinct values, not-a-number once and last. *)
Definition unique (col : vector) : vector :=
  merge_sort scalar_le (remove_dups col).

Definition better (a best : scalar) : bool :=
  negb (isnan best) &&
  (isnan a || match a, best with Fin r, Fin s => Rltb s r | _, _ => false end).

Fixpoint argmax_from (best_i : nat) (best : scalar) (i : nat) (l : vector)
  : nat :=
  match l with
  | [] => best_i
  | a :: l' =>
      if better a best then argmax_from i a (S i) l'
      else argmax_from best_i best (S i) l'
  end.

(** [np.argmax] of one row: the first index of the maximum, not-a-number
    counting as the maximum; an empty row raises. *)
Definition argmax (row : vector) : option nat :=
  match row with
  | [] => None
  | a :: l => Some (argmax_from 0 a 1 l)
  end.

(** [t.shape[1]] of a two-dimensional tensor given by its rows. *)
Definition shape1 (t : matrix) : nat :=
  match t with [] => 0 | row :: _ => length row end.
End np.

Record MultiOmicDataset : Type := {
  mo_variable_types : gmap string string;
  mo_ann : gmap string vector
}.

(** The geometric dataset: [items] are [dataset[0]], [dataset[1]], ... *)
Record MultiOmicGeometricDataset : Type := {
  multiomic_dataset : MultiOmicDataset;
  items : list Data;
  samples : list string
}.

Section construction.
(** The functions computed by freshly initialised modules. *)
Variable init_GNNs :
  nat -> Z -> nat -> string -> option string -> bool -> Batch -> matrix.
Variable init_MLP : string -> nat -> nat -> nat -> bool -> matrix -> matrix.

(** The names that are already attributes of an empty [nn.ParameterDict] and
    of an empty [nn.ModuleDict]. *)
Variable parameter_dict_attribute : string -> bool.
Variable module_dict_attribute : string -> bool.

Definition new_GNNs (input_dim : nat) (hidden_dim : Z) (output_dim : nat)
    (act : string) (conv : option string) : GNNs :=
  {| gnn_input_dim := input_dim; gnn_hidden_dim := hidden_dim;
     gnn_output_dim := output_dim; gnn_act := act; gnn_conv := conv;
     gnn_forward := init_GNNs input_dim hidden_dim output_dim act conv |}.

Definition new_MLP (var : string) (input_dim hidden_dim output_dim : nat)
  : MLP :=
  {| mlp_input_dim := input_dim; mlp_hidden_dim := hidden_dim;
     mlp_output_dim := output_dim;
     mlp_forward := init_MLP var input_dim hidden_dim output_dim |}.

Definition num_class (types : gmap string string) (annot : gmap string vector)
    (var : string) : option nat :=
  ty ← types !! var;
  if String.eqb ty "numerical" then Some 1
  else (col ← annot !! var; Some (length (np.unique col))).

Fixpoint has_dot (name : string) : bool :=
  match name with
  | EmptyString => false
  | String c rest => Ascii.eqb c "."%char || has_dot rest
  end.

(** A torch container stores an entry under a name that is not empty, holds
    no dot and is not an attribute the container already has; any other name
    raises KeyError. *)
Definition valid_key (attribute : string -> bool) (name : string) : bool :=
  negb (String.eqb name EmptyString) && negb (has_dot name)
  && negb (attribute name).

Definition guard_key (attribute : string -> bool) (name : string)
  : option unit :=
  if valid_key attribute name then Some tt else None.

(** The width of the head of [var], when the head can be stored under that
    name. *)
Definition head_outputs (types : gmap string string)
    (annot : gmap string vector) (attribute : string -> bool) (var : string)
  : option nat :=
  n ← num_class types annot var;
  u ← guard_key attribute var;
  Some n.

(** The survival pair adds one target, the event variable. *)
Definition init_target_variables (target_variables : list string)
    (surv_event_var surv_time_var : option string) : list string :=
  match surv_event_var, surv_time_var with
  | Some ev, Some _ => target_variables ++ [ev]
  | _, _ => target_variables
  end.

(** [target + batch if batch else target]: [None] and the empty list are
    both false. *)
Definition init_variables (target_variables : list string)
    (batch_variables : option (list string)) : list string :=
  match batch_variables with
  | Some (_ :: _ as bv) => target_variables ++ bv
  | _ => target_variables
  end.

Definition init (config : Config) (dataset : MultiOmicGeometricDataset)
    (target_variables : list string) (batch_variables : option (list string))
    (surv_event_var surv_time_var : option string)
    (use_loss_weighting : bool) (device_type gnn_conv_type : option string)
  : option GNNEarly :=
  let target_variables :=
    init_target_variables target_variables surv_event_var surv_time_var in
  let variables := init_variables target_variables batch_variables in
  let variable_types := mo_variable_types (multiomic_dataset dataset) in
  let ann := mo_ann (multiomic_dataset dataset) in
  log_vars ←
    (if use_loss_weighting
     then foldl (fun acc var =>
                   lv ← acc;
                   u ← guard_key parameter_dict_attribute var;
                   Some (<[var := Fin 0]> lv))
                (Some ∅) variables
     else Some ∅);
  d0 ← items dataset !! 0%nat;
  let node_features := np.shape1 (x d0) in
  let hidden_dim := Rtrunc (hidden_dim_factor config * INR node_features) in
  let encoders :=
    new_GNNs node_features hidden_dim (latent_dim config)
             (activation config) gnn_conv_type in
  MLPs ← foldl (fun acc var =>
                  mlps ← acc;
                  n ← head_outputs variable_types ann
                                   module_dict_attribute var;
                  Some (<[var := new_MLP var (latent_dim config)
                                   (supervisor_hidden_dim config) n]> mlps))
               (Some ∅) variables;
  Some {| config := config; target_variables := target_variables;
          surv_event_var := surv_event_var; surv_time_var := surv_time_var;
          batch_variables := batch_variables; variables := variables;
          variable_types := variable_types; ann := ann;
          use_loss_weighting := use_loss_weighting; log_vars := log_vars;
          device_type := device_type; gnn_conv_type := gnn_conv_type;
          encoders := encoders; MLPs := MLPs; training := true |}.
End construction.

(** ** Inference *)

Module DataLoader.
(** [next(iter(DataLoader(dataset, batch_size=n, shuffle=False)))]: the
    first [n] items in dataset order.  A batch size of zero is refused and
    an empty dataset has no first batch. *)
Definition first_batch (dataset : list Data) (batch_size : nat)
  : option Batch :=
  if decide (batch_size = 0%nat) then None
  else match take batch_size dataset with
       | [] => None
       | batch => Some batch
       end.
End DataLoader.

Module pd.
Record DataFrame : Type := {
  values : matrix;
  index : list string;
  columns : list string
}.

(** [pd.DataFrame(values, index=..., columns=...)]: the labels must fit the
    shape of the values. *)
Definition new_DataFrame (vals : matrix) (idx cols : list string)
  : option DataFrame :=
  if decide (length idx = length vals) then
    if forallb (fun row => (length row =? length cols)%nat) vals
    then Some {| values := vals; index := idx; columns := cols |}
    else None
  else None.
End pd.

Inductive prediction : Type :=
  | Classes : list nat -> prediction
  | Raw : matrix -> prediction.

(** [self.eval()] clears the training flag and nothing else. *)
Definition eval (self : GNNEarly) : GNNEarly :=
  {| config := config self; target_variables := target_variables self;
     surv_event_var := surv_event_var self;
     surv_time_var := surv_time_var self;
     batch_variables := batch_variables self; variables := variables self;
     variable_types := variable_types self; ann := ann self;
     use_loss_weighting := use_loss_weighting self;
     log_vars := log_vars self; device_type := device_type self;
     gnn_conv_type := gnn_conv_type self; encoders := encoders self;
     MLPs := MLPs self; training := false |}.

(** One iteration of the loop of [predict]. *)
Definition predict_variable (self : GNNEarly) (outputs : gmap string matrix)
    (var : string) : option prediction :=
  y_pred ← outputs !! var;
  ty ← variable_types self !! var;
  if String.eqb ty "categorical" then
    classes ← mapM np.argmax y_pred;
    Some (Classes classes)
  else Some (Raw y_pred).

(** [predict] and [transform] return the model as they leave it, next to
    their result. *)
Definition predict (self : GNNEarly) (dataset : MultiOmicGeometricDataset)
  : option (GNNEarly * gmap string prediction) :=
  let self := eval self in
  batch ← DataLoader.first_batch (items dataset) (length (items dataset));
  let outputs := forward self batch in
  predictions ←
    foldl (fun acc var =>
             predictions ← acc;
             p ← predict_variable self outputs var;
             Some (<[var := p]> predictions))
          (Some ∅) (variables self);
  Some (self, predictions).

Definition transform (self : GNNEarly) (dataset : MultiOmicGeometricDataset)
  : option (GNNEarly * pd.DataFrame) :=
  let self := eval self in
  data ← DataLoader.first_batch (items dataset) (length (items dataset));
  let embeddings := gnn_forward (encoders self) (training self) data in
  embeddings_df ←
    pd.new_DataFrame embeddings (samples dataset)
      (map (fun dim => "E" +:+ pretty dim) (seq 0 (np.shape1 embeddings)));
  Some (self, embeddings_df).

(** ** What the specification says, in its own words *)

Module spec.
(** A sum over tasks or samples, as mathematics writes it. *)
Definition Sigma (l : list scalar) : scalar := foldr sadd (Fin 0) l.

Definition average (l : list scalar) : scalar :=
  sdiv (Sigma l) (Fin (INR (length l))).

(** The samples (prediction, label) whose label passes the test [f]. *)
Definition kept {A B} (f : B -> bool) (t : list A) (y : list B)
  : list (A * B) :=
  filter (fun s => Is_true (f s.2)) (zip t y).

(** Numerical loss: drop the samples whose label is not-a-number, then the
    mean squared error of the rest; zero if nothing is left. *)
Definition numerical_loss (preds y : vector) : scalar :=
  match kept (fun a => negb (isnan a)) preds y with
  | [] => Fin 0
  | rest => average (map (fun s => F.sq_err s.1 s.2) rest)
  end.

Definition missing : Z := (-1)%Z.

Definition present (c : Z) : bool := negb (c =? missing)%Z.

(** The label tensor of integer class codes. *)
Definition encode (codes : list Z) : vector := map (fun c => Fin (IZR c)) codes.

(** Categorical loss: drop the samples whose code is the missing sentinel,
    then the cross-entropy of the rest; zero if nothing is left. *)
Definition categorical_loss (logits : matrix) (codes : list Z)
  : option scalar :=
  match kept present logits codes with
  | [] => Some (Fin 0)
  | rest => F.cross_entropy (map fst rest) (map snd rest)
  end.

(** exp(-log_var) * loss + log_var, summed over the tasks. *)
Definition weighted_total (log_var : string -> scalar)
    (losses : py.dict scalar) : scalar :=
  Sigma (map (fun t => sadd (smul (sexp (sneg (log_var t.1))) t.2)
                            (log_var t.1)) losses).

Definition plain_total (losses : py.dict scalar) : scalar :=
  Sigma (py.values losses).

(** The output of one head on the whole dataset, in evaluation mode. *)
Definition head_output (self : GNNEarly) (dataset : MultiOmicGeometricDataset)
    (mlp : MLP) : matrix :=
  mlp_forward mlp false (gnn_forward (encoders self) false (items dataset)).

(** The arg-max class index of every row of logits for a categorical
    variable, the raw output otherwise. *)
Definition predicted (ty : string) (y_pred : matrix) (p : prediction)
  : Prop :=
  if String.eqb ty "categorical"
  then exists classes,
         p = Classes classes /\
         Forall2 (fun row c => np.argmax row = Some c) y_pred classes
  else p = Raw y_pred.

(** Every variable has a head and a type, and a categorical head yields no
    empty row of logits. *)
Definition heads_ready (self : GNNEarly)
    (dataset : MultiOmicGeometricDataset) : Prop :=
  forall var, var ∈ variables self ->
    exists mlp ty,
      MLPs self !! var = Some mlp /\
      variable_types self !! var = Some ty /\
      (ty = "categorical" ->
       Forall (fun row => row <> []) (head_output self dataset mlp)).

(** In evaluation mode the encoder embeds every graph on its own and a head
    maps every embedding on its own. *)
Definition per_graph (g : GNNs) (enc : Data -> vector) : Prop :=
  forall batch, gnn_forward g false batch = map enc batch.

Definition row_wise (mlp : MLP) (head : vector -> vector) : Prop :=
  forall embeddings, mlp_forward mlp false embeddings = map head embeddings.

Definition sample_wise (self : GNNEarly) (enc : Data -> vector)
    (heads : string -> vector -> vector) : Prop :=
  per_graph (encoders self) enc /\
  (forall g, length (enc g) = gnn_output_dim (encoders self)) /\
  forall var, var ∈ variables self ->
    exists mlp ty,
      MLPs self !! var = Some mlp /\
      variable_types self !! var = Some ty /\
      row_wise mlp (heads var) /\
      (ty = "categorical" -> forall e, heads var e <> []).

(** What [predict] reports at position [i] for a sample whose head output
    is [out]. *)
Definition reported (ty : string) (out : vector) (p : prediction) (i : nat)
  : Prop :=
  if String.eqb ty "categorical"
  then exists classes c,
         p = Classes classes /\ classes !! i = Some c /\
         np.argmax out = Some c
  else exists y_pred, p = Raw y_pred /\ y_pred !! i = Some out.

(** The labels E0, E1, ... of the latent dimensions. *)
Definition column_labels (d : nat) : list string :=
  map (fun dim => "E" +:+ pretty dim) (seq 0 d).

Definition embedding_table (self : GNNEarly)
    (dataset : MultiOmicGeometricDataset) : pd.DataFrame :=
  let embeddings := gnn_forward (encoders self) false (items dataset) in
  {| pd.values := embeddings; pd.index := samples dataset;
     pd.columns := column_labels (np.shape1 embeddings) |}.
End spec.

(** ** Concrete models used by the examples *)

Module example.
Definition cfg : Config :=
  {| latent_dim := 2; hidden_dim_factor := 1; supervisor_hidden_dim := 4;
     lr := 1; activation := "relu" |}.

(** An encoder that embeds a graph as the first two features of its first
    node. *)
Definition embed (d : Data) : vector :=
  match x d with
  | (a :: b :: _) :: _ => [a; b]
  | _ => [Fin 0; Fin 0]
  end.

Definition enc : GNNs :=
  {| gnn_input_dim := 2; gnn_hidden_dim := 2; gnn_output_dim := 2;
     gnn_act := "relu"; gnn_conv := None;
     gnn_forward := fun _ batch => map embed batch |}.

(** A head with fixed output [out] for every sample. *)
Definition const_head (out : vector) : MLP :=
  {| mlp_input_dim := 2; mlp_hidden_dim := 4; mlp_output_dim := length out;
     mlp_forward := fun _ embeddings => map (fun _ => out) embeddings |}.

Definition model (vars : list string) (types : gmap string string)
    (ev tm : option string) (weighting : bool) (lv : gmap string scalar)
    (heads : gmap string MLP) : GNNEarly :=
  {| config := cfg; target_variables := vars; surv_event_var := ev;
     surv_time_var := tm; batch_variables := None; variables := vars;
     variable_types := types; ann := ∅; use_loss_weighting := weighting;
     log_vars := lv; device_type := None; gnn_conv_type := None;
     encoders := enc; MLPs := heads; training := true |}.

Definition graph (feat : vector) (labels : gmap string scalar) : Data :=
  {| x := [feat]; edge_index := []; y_dict := labels |}.

(** Two numerical tasks whose learned log-variances are both 1. *)
Definition two_tasks : GNNEarly :=
  model ["a"; "b"]
        (<["a" := "numerical"]> (<["b" := "numerical"]> ∅)) None None true
        (<["a" := Fin 1]> (<["b" := Fin 1]> ∅))
        (<["a" := const_head [Fin 0]]> (<["b" := const_head [Fin 0]]> ∅)).

(** The same two tasks without uncertainty weighting. *)
Definition two_tasks_plain : GNNEarly :=
  model ["a"; "b"]
        (<["a" := "numerical"]> (<["b" := "numerical"]> ∅)) None None false
        ∅
        (<["a" := const_head [Fin 0]]> (<["b" := const_head [Fin 0]]> ∅)).

Definition two_tasks_batch : Batch :=
  [graph [Fin 0; Fin 0] (<["a" := Fin 1]> (<["b" := Fin 1]> ∅))].

(** A numerical and a categorical task. *)
Definition mixed : GNNEarly :=
  model ["n"; "c"]
        (<["n" := "numerical"]> (<["c" := "categorical"]> ∅)) None None true
        (<["n" := Fin 0]> (<["c" := Fin 0]> ∅))
        (<["n" := const_head [Fin 3]]>
           (<["c" := const_head [Fin 0; Fin 1]]> ∅)).

Definition mixed_dataset : MultiOmicGeometricDataset :=
  {| multiomic_dataset := {| mo_variable_types := ∅; mo_ann := ∅ |};
     items := [graph [Fin 1; Fin 2] ∅; graph [Fin 3; Fin 4] ∅];
     samples := ["s1"; "s2"] |}.

Definition mixed_heads (var : string) (embedding : vector) : vector :=
  if String.eqb var "n" then [Fin 3] else [Fin 0; Fin 1].

(** A survival task: event variable "e", time variable "t". *)
Definition survival : GNNEarly :=
  model ["e"] (<["e" := "numerical"]> ∅) (Some "e") (Some "t") true
        (<["e" := Fin 0]> ∅) (<["e" := const_head [Fin 0]]> ∅).

Definition censored_batch : Batch :=
  [graph [Fin 0; Fin 0] (<["e" := Fin 0]> (<["t" := Fin 5]> ∅));
   graph [Fin 0; Fin 0] (<["e" := Fin 0]> (<["t" := Fin 7]> ∅))].

(** A categorical column with two classes and one missing label. *)
Definition labelled_dataset : MultiOmicGeometricDataset :=
  {| multiomic_dataset :=
       {| mo_variable_types := <["c" := "categorical"]> ∅;
          mo_ann := <["c" := [Fin 0; Fin 1; Fin (-1)]]> ∅ |};
     items := [graph [Fin 1; Fin 2] ∅; graph [Fin 3; Fin 4] ∅;
               graph [Fin 5; Fin 6] ∅];
     samples := ["s1"; "s2"; "s3"] |}.

(** A few of the attributes that every torch module has. *)
Definition module_attribute (name : string) : bool :=
  existsb (String.eqb name) ["training"; "forward"; "type"; "keys"; "items";
                             "values"; "parameters"; "eval"; "train"].

Definition fresh_GNNs (input_dim : nat) (hidden_dim : Z) (output_dim : nat)
    (act : string) (conv : option string) (training : bool) (batch : Batch)
  : matrix :=
  map embed batch.

Definition fresh_MLP (var : string) (input_dim hidden_dim output_dim : nat)
    (training : bool) (embeddings : matrix) : matrix :=
  map (fun _ => replicate output_dim (Fin 0)) embeddings.

(** Logits whose largest entry is the last of [n + 1]. *)
Definition last_hot (n : nat) : vector := replicate n (Fin 0) ++ [Fin 1].
End example.

(** ** Notions used to state how the code behaves *)

(** The labels that [compute_loss] keeps for a variable of type [ty]. *)
Definition valid_label (ty : string) (a : scalar) : bool :=
  if String.eqb ty "numerical" then negb (isnan a)
  else sne a (Fin (-1)) && negb (isnan a).

(** The loss that [compute_loss] applies to what the mask leaves. *)
Definition loss_function (ty : string) (y_hat : matrix) (y : vector)
  : option scalar :=
  if String.eqb ty "numerical"
  then F.mse_loss (torch.flatten y_hat) (torch.float y)
  else F.cross_entropy y_hat (torch.long y).

(** ** Evaluation in [flexynesis/__main__.py] *)

Module main.
(** [ind = ~torch.isnan(ann[var])], then [ann[var][ind]] and
    [y_pred_dict[var][ind]]: what the evaluation functions receive. *)
Definition evaluation_inputs {A} (labels : vector) (y_pred : list A)
  : option (vector * list A) :=
  let ind := torch.lnot (torch.isnan labels) in
  y ← torch.select labels ind;
  p ← torch.select y_pred ind;
  Some (y, p).
End main.

(** ** Further concrete models *)

Module more_examples.
(** The survival-event variable "e" given as a target, without a
    survival-time variable. *)
Definition untimed : GNNEarly :=
  example.model ["e"] (<["e" := "numerical"]> ∅) (Some "e") None true
                (<["e" := Fin 0]> ∅)
                (<["e" := example.const_head [Fin 0]]> ∅).

(** Two numerical variables, both labelled 1 on a single graph. *)
Definition numeric_dataset : MultiOmicGeometricDataset :=
  {| multiomic_dataset :=
       {| mo_variable_types :=
            <["a" := "numerical"]> (<["b" := "numerical"]> ∅);
          mo_ann := ∅ |};
     items := [example.graph [Fin 1; Fin 2]
                 (<["a" := Fin 1]> (<["b" := Fin 1]> ∅))];
     samples := ["s1"] |}.

(** The model that construction returns for them, with weighting. *)
Definition fresh : GNNEarly :=
  {| config := example.cfg; target_variables := ["a"; "b"];
     surv_event_var := None; surv_time_var := None;
     batch_variables := None; variables := ["a"; "b"];
     variable_types := <["a" := "numerical"]> (<["b" := "numerical"]> ∅);
     ann := ∅; use_loss_weighting := true;
     log_vars := <["b" := Fin 0]> (<["a" := Fin 0]> ∅);
     device_type := None; gnn_conv_type := None;
     encoders := new_GNNs example.fresh_GNNs 2 (Rtrunc (1 * INR 2)) 2
                          "relu" None;
     MLPs := <["b" := new_MLP example.fresh_MLP "b" 2 4 1]>
               (<["a" := new_MLP example.fresh_MLP "a" 2 4 1]> ∅);
     training := true |}.
End more_examples.

(** * Proofs *)

(** ** Scalar arithmetic *)

Ltac Rdecide :=
  repeat match goal with
    | |- context [Req_dec_T ?a ?b] =>
        destruct (Req_dec_T a b); [try (exfalso; lra)|try (exfalso; lra)]
    | |- context [Rlt_dec ?a ?b] =>
        destruct (Rlt_dec a b); [try (exfalso; lra)|try (exfalso; lra)]
    | |- context [Rle_dec ?a ?b] =>
        destruct (Rle_dec a b); [try (exfalso; lra)|try (exfalso; lra)]
    end.

Lemma sadd_comm a b : sadd a b = sadd b a.
Proof. destruct a, b; simpl; try reflexivity. f_equal. lra. Qed.

Lemma sadd_assoc a b c : sadd a (sadd b c) = sadd (sadd a b) c.
Proof. destruct a, b, c; simpl; try reflexivity. f_equal. lra. Qed.

Lemma sadd_0_l a : sadd (Fin 0) a = a.
Proof. destruct a; simpl; try reflexivity. f_equal. lra. Qed.

Lemma sadd_0_r a : sadd a (Fin 0) = a.
Proof. rewrite sadd_comm. apply sadd_0_l. Qed.

Lemma Reqb_refl a : Reqb a a = true.
Proof. unfold Reqb. destruct (Req_dec_T a a); [reflexivity|contradiction]. Qed.

Lemma Reqb_IZR a b : Reqb (IZR a) (IZR b) = (a =? b)%Z.
Proof.
  unfold Reqb. destruct (Req_dec_T (IZR a) (IZR b)) as [H|H].
  - apply eq_IZR in H. subst. now rewrite Z.eqb_refl.
  - symmetry. apply Z.eqb_neq. intros ->. now apply H.
Qed.

Lemma Rltb_irrefl a : Rltb a a = false.
Proof. unfold Rltb. destruct (Rlt_dec a a); [lra|reflexivity]. Qed.

Lemma Rltb_0_1 : Rltb 0 1 = true.
Proof. unfold Rltb. destruct (Rlt_dec 0 1); [reflexivity|lra]. Qed.

Lemma Int_part_IZR z : Int_part (IZR z) = z.
Proof. symmetry. apply Int_part_spec. lra. Qed.

(** Converting an integer code to [long] gives the code back. *)
Lemma Rtrunc_IZR z : Rtrunc (IZR z) = z.
Proof.
  unfold Rtrunc. destruct (Rleb 0 (IZR z)).
  - apply Int_part_IZR.
  - rewrite <- opp_IZR, Int_part_IZR. lia.
Qed.

(** Python's left-to-right [sum] is the mathematical sum. *)
Lemma foldl_sadd acc l : foldl sadd acc l = sadd acc (spec.Sigma l).
Proof.
  revert acc. induction l as [|a l IH]; intros acc; simpl.
  - now rewrite sadd_0_r.
  - rewrite IH. now rewrite sadd_assoc.
Qed.

Lemma py_sum_Sigma l : py.sum l = spec.Sigma l.
Proof. unfold py.sum. rewrite foldl_sadd. apply sadd_0_l. Qed.

Lemma mean_average l : torch.mean l = spec.average l.
Proof. unfold torch.mean, spec.average. now rewrite py_sum_Sigma. Qed.

(** ** Dicts *)

Lemma get_set_eq {V} k (v : V) d : py.get k (py.set k v d) = Some v.
Proof.
  induction d as [|[k' v'] d IH]; simpl.
  - now rewrite String.eqb_refl.
  - destruct (String.eqb_spec k' k) as [->|Hne]; simpl.
    + now rewrite String.eqb_refl.
    + destruct (String.eqb_spec k' k); [contradiction|exact IH].
Qed.

Lemma get_set_ne {V} k k' (v : V) d :
  k <> k' -> py.get k' (py.set k v d) = py.get k' d.
Proof.
  intros Hne. induction d as [|[k0 v0] d IH]; simpl.
  - destruct (String.eqb_spec k k'); [contradiction|reflexivity].
  - destruct (String.eqb_spec k0 k) as [->|Hne0]; simpl.
    + destruct (String.eqb_spec k k'); [contradiction|reflexivity].
    + destruct (String.eqb_spec k0 k'); [reflexivity|exact IH].
Qed.

Lemma elem_of_map {A B} (f : A -> B) (l : list A) (y : B) :
  y ∈ map f l -> exists a, y = f a /\ a ∈ l.
Proof. apply (list_elem_of_fmap f l y). Qed.

(** The loop that collects one loss per variable in an ordered dict. *)
Lemma collect_losses_get (f : string -> option scalar) (vars : list string)
    (losses : py.dict scalar) :
  foldl (fun acc var =>
           losses ← acc; loss ← f var; Some (py.set var loss losses))
        (Some []) vars = Some losses ->
  forall var, var ∈ vars -> py.get var losses = f var.
Proof.
  revert losses. induction vars as [|v vars IH] using rev_ind;
    intros losses Hfold var Hin.
  - inversion Hin.
  - rewrite foldl_snoc in Hfold.
    destruct (foldl _ _ vars) as [losses'|] eqn:Hprev; [|discriminate].
    simpl in Hfold. destruct (f v) as [loss|] eqn:Hv; [|discriminate].
    simpl in Hfold. injection Hfold as <-.
    destruct (decide (v = var)) as [->|Hne].
    + now rewrite get_set_eq.
    + rewrite get_set_ne by exact Hne. apply (IH losses' eq_refl).
      apply elem_of_app in Hin as [Hin|Hin]; [exact Hin|].
      apply list_elem_of_singleton in Hin. congruence.
Qed.

(** The loop that fills a map with one entry per variable. *)
Lemma collect_insert {N V} (g : string -> option N) (h : string -> N -> V)
    (vars : list string) :
  (forall v, v ∈ vars -> is_Some (g v)) ->
  exists m : gmap string V,
    foldl (fun acc var => m ← acc; n ← g var; Some (<[var := h var n]> m))
          (Some ∅) vars = Some m /\
    forall v, v ∈ vars -> m !! v = h v <$> g v.
Proof.
  induction vars as [|v vars IH] using rev_ind; intros Hg.
  - exists ∅. split; [reflexivity|]. intros v Hin. inversion Hin.
  - destruct IH as (m & Hm & Hlook).
    { intros u Hu. apply Hg, elem_of_app. now left. }
    destruct (Hg v) as [n Hn]; [apply elem_of_app; right; now left|].
    exists (<[v := h v n]> m). split.
    + rewrite foldl_snoc, Hm. simpl. now rewrite Hn.
    + intros u Hu. destruct (decide (v = u)) as [->|Hne].
      * now rewrite lookup_insert_eq, Hn.
      * rewrite lookup_insert_ne by exact Hne. apply Hlook.
        apply elem_of_app in Hu as [Hu|Hu]; [exact Hu|].
        apply list_elem_of_singleton in Hu. congruence.
Qed.

Lemma collect_insert_inv {N V} (g : string -> option N) (h : string -> N -> V)
    (vars : list string) (m : gmap string V) :
  foldl (fun acc var => m ← acc; n ← g var; Some (<[var := h var n]> m))
        (Some ∅) vars = Some m ->
  (forall v, v ∈ vars -> is_Some (g v)) /\
  (forall v, v ∉ vars -> m !! v = None).
Proof.
  revert m. induction vars as [|u vars IH] using rev_ind; intros m Hfold.
  - injection Hfold as <-. split; [intros v Hv; inversion Hv|].
    intros v _. apply lookup_empty.
  - rewrite foldl_snoc in Hfold.
    destruct (foldl _ _ vars) as [m'|] eqn:Hprev; [|discriminate].
    simpl in Hfold. destruct (g u) as [n|] eqn:Hu; [|discriminate].
    simpl in Hfold. injection Hfold as <-.
    destruct (IH m' eq_refl) as [Hg Hout]. split.
    + intros v Hv. apply elem_of_app in Hv as [Hv|Hv]; [now apply Hg|].
      apply list_elem_of_singleton in Hv as ->. rewrite Hu. eauto.
    + intros v Hv. rewrite elem_of_app in Hv.
      rewrite lookup_insert_ne.
      * apply Hout. tauto.
      * intros ->. apply Hv. right. apply list_elem_of_singleton.
        reflexivity.
Qed.

Lemma guard_key_is_Some attribute name :
  is_Some (guard_key attribute name) <-> valid_key attribute name = true.
Proof.
  unfold guard_key. destruct (valid_key attribute name).
  - split; eauto.
  - split; [intros [? ?]; discriminate|discriminate].
Qed.

Lemma head_outputs_valid types annot attribute var :
  valid_key attribute var = true ->
  head_outputs types annot attribute var = num_class types annot var.
Proof.
  intros Hk. unfold head_outputs, guard_key. rewrite Hk.
  now destruct (num_class types annot var).
Qed.

Lemma head_outputs_is_Some types annot attribute var :
  is_Some (head_outputs types annot attribute var) <->
  is_Some (num_class types annot var) /\ valid_key attribute var = true.
Proof.
  unfold head_outputs, guard_key.
  destruct (num_class types annot var) as [n|]; simpl.
  - destruct (valid_key attribute var); simpl.
    + split; eauto.
    + split; [intros [? ?]; discriminate|]. intros [_ ?]. discriminate.
  - split; [intros [? ?]; discriminate|]. intros [[? ?] _]. discriminate.
Qed.

(** ** Masking *)

Section masks.
Context {A B C : Type} (f : B -> bool) (g : B -> C).

Lemma select_zip (t : list A) (y : list B) :
  length t = length y ->
  torch.select t (map f y) = Some (map fst (spec.kept f t y)).
Proof.
  revert y. induction t as [|a t IH]; intros [|b y] Hlen;
    try discriminate; [reflexivity|].
  injection Hlen as Hlen. unfold spec.kept in *.
  cbn [map torch.select zip zip_with].
  rewrite (IH y Hlen). rewrite filter_cons. simpl.
  destruct (f b); reflexivity.
Qed.

Lemma select_labels (t : list A) (y : list B) :
  length t = length y ->
  torch.select (map g y) (map f y)
  = Some (map (fun s => g s.2) (spec.kept f t y)).
Proof.
  revert y. induction t as [|a t IH]; intros [|b y] Hlen;
    try discriminate; [reflexivity|].
  injection Hlen as Hlen. unfold spec.kept in *.
  cbn [map torch.select zip zip_with].
  rewrite (IH y Hlen). rewrite filter_cons. simpl.
  destruct (f b); reflexivity.
Qed.

Lemma mask_sum_kept (t : list A) (y : list B) :
  length t = length y ->
  torch.mask_sum (map f y) = length (spec.kept f t y).
Proof.
  revert y. induction t as [|a t IH]; intros [|b y] Hlen;
    try discriminate; [reflexivity|].
  injection Hlen as Hlen. unfold spec.kept, torch.mask_sum in *.
  cbn [map zip zip_with]. rewrite !filter_cons. simpl.
  destruct (f b); simpl; rewrite (IH y Hlen); reflexivity.
Qed.

Lemma kept_none (t : list A) (y : list B) :
  Forall (fun b => f b = false) y -> spec.kept f t y = [].
Proof.
  intros Hy. revert t. induction Hy as [|b y Hb _ IH]; intros [|a t];
    try reflexivity.
  unfold spec.kept in *. cbn [zip zip_with]. rewrite filter_cons. simpl.
  rewrite Hb. simpl. apply IH.
Qed.
End masks.

Lemma flatten_columns {B} (k : list (scalar * B)) :
  torch.flatten (map fst (map (fun s => ([s.1], s.2)) k)) = map fst k.
Proof. induction k as [|[a b] k IH]; simpl; [reflexivity|]. now f_equal. Qed.

Lemma kept_columns {B} (f : B -> bool) (preds : vector) (y : list B) :
  spec.kept f (map (fun p => [p]) preds) y =
  map (fun s => ([s.1], s.2)) (spec.kept f preds y).
Proof.
  revert y. induction preds as [|p preds IH]; intros [|b y]; try reflexivity.
  unfold spec.kept in *. cbn [map zip zip_with]. rewrite !filter_cons. simpl.
  destruct (f b); simpl; rewrite IH; reflexivity.
Qed.

Lemma mse_loss_pairs (k : list (scalar * scalar)) :
  F.mse_loss (map fst k) (map snd k) =
  Some (torch.mean (map (fun s => F.sq_err s.1 s.2) k)).
Proof.
  unfold F.mse_loss. rewrite !length_map.
  destruct (decide (length k = length k)) as [_|Hne]; [|contradiction].
  do 2 f_equal. induction k as [|[a b] k IH]; simpl; [reflexivity|].
  now f_equal.
Qed.

Lemma categorical_mask codes :
  torch.land (torch.ne (spec.encode codes) (Fin (-1)))
             (torch.lnot (torch.isnan (spec.encode codes))) =
  map spec.present codes.
Proof.
  unfold torch.land, torch.ne, torch.lnot, torch.isnan, spec.encode.
  induction codes as [|c codes IH]; [reflexivity|].
  cbn [map zip_with]. rewrite IH. f_equal. simpl.
  rewrite Reqb_IZR. unfold spec.present, spec.missing. now rewrite andb_true_r.
Qed.

Lemma long_encode (k : list Z) : torch.long (spec.encode k) = k.
Proof.
  unfold torch.long, spec.encode. rewrite map_map. simpl.
  induction k as [|c k IH]; simpl; [reflexivity|].
  now rewrite Rtrunc_IZR, IH.
Qed.

(** ** The per-variable loss *)

Lemma compute_loss_numerical self var (preds y : vector) :
  variable_types self !! var = Some "numerical" ->
  length preds = length y ->
  compute_loss self var y (map (fun p => [p]) preds) =
  Some (spec.numerical_loss preds y).
Proof.
  intros Hty Hlen. unfold compute_loss. rewrite Hty. simpl.
  unfold torch.lnot, torch.isnan. rewrite map_map.
  set (f := fun a : scalar => negb (isnan a)).
  assert (Hlen' : length (map (fun p : scalar => [p]) preds) = length y)
    by now rewrite length_map.
  rewrite (mask_sum_kept f _ y Hlen'), (select_zip f _ y Hlen').
  pose proof (select_labels f (fun a => a) (map (fun p : scalar => [p]) preds)
                y Hlen') as Hy.
  rewrite (map_ext (fun a => a) Datatypes.id), map_id in Hy by reflexivity.
  rewrite Hy. clear Hy.
  rewrite kept_columns, length_map. unfold spec.numerical_loss. fold f.
  generalize (spec.kept f preds y). intros K.
  cbn [mbind option_bind]. rewrite flatten_columns, map_map. cbn [fst snd].
  unfold torch.float.
  change (map (fun x : scalar * scalar => x.2) K) with (map snd K).
  rewrite mse_loss_pairs, mean_average.
  destruct K; reflexivity.
Qed.

Lemma compute_loss_categorical self var ty (codes : list Z) (logits : matrix) :
  variable_types self !! var = Some ty ->
  ty <> "numerical" ->
  length logits = length codes ->
  compute_loss self var (spec.encode codes) logits =
  spec.categorical_loss logits codes.
Proof.
  intros Hty Hne Hlen. unfold compute_loss. rewrite Hty. simpl.
  destruct (String.eqb_spec ty "numerical") as [?|_]; [contradiction|].
  rewrite categorical_mask.
  rewrite (mask_sum_kept spec.present logits codes Hlen),
          (select_zip spec.present logits codes Hlen).
  unfold spec.encode at 1.
  rewrite (select_labels spec.present (fun c => Fin (IZR c)) logits codes Hlen).
  simpl. unfold spec.categorical_loss.
  destruct (spec.kept spec.present logits codes) as [|s k]; [reflexivity|].
  simpl length. simpl Nat.ltb. cbv iota.
  f_equal. rewrite <- (long_encode (map snd (s :: k))).
  unfold spec.encode. now rewrite map_map.
Qed.

(** C2: for a numerical variable, [compute_loss] leaves out the samples whose
    label is not-a-number and returns the mean squared error over the
    remaining samples; when no label is valid it returns exactly zero, which
    is neither an error nor not-a-number. *)
Theorem numerical_loss_masks_missing self var (preds y : vector) :
  variable_types self !! var = Some "numerical" ->
  length preds = length y ->
  compute_loss self var y (map (fun p => [p]) preds) =
    Some (spec.numerical_loss preds y) /\
  (Forall (fun a => isnan a = true) y ->
   compute_loss self var y (map (fun p => [p]) preds) = Some (Fin 0)).
Proof.
  intros Hty Hlen. rewrite (compute_loss_numerical self var preds y Hty Hlen).
  split; [reflexivity|]. intros Hnan. unfold spec.numerical_loss.
  rewrite kept_none; [reflexivity|].
  eapply Forall_impl; [exact Hnan|]. intros a Ha. simpl. now rewrite Ha.
Qed.

Lemma numerical_loss_masks_missing_witness :
  compute_loss example.two_tasks "a" [Fin 1; NaN] [[Fin 0]; [Fin 5]] =
  Some (spec.numerical_loss [Fin 0; Fin 5] [Fin 1; NaN]).
Proof.
  apply (numerical_loss_masks_missing
           example.two_tasks "a" [Fin 0; Fin 5] [Fin 1; NaN]); reflexivity.
Defined.

(** C3: for a categorical variable, [compute_loss] leaves out the samples
    whose integer code is the missing sentinel -1 and returns the
    cross-entropy over the remaining samples; when no sample remains it
    returns exactly zero. *)
Theorem categorical_loss_masks_missing self var ty (codes : list Z)
    (logits : matrix) :
  variable_types self !! var = Some ty ->
  ty <> "numerical" ->
  length logits = length codes ->
  compute_loss self var (spec.encode codes) logits =
    spec.categorical_loss logits codes /\
  (Forall (fun c => c = spec.missing) codes ->
   compute_loss self var (spec.encode codes) logits = Some (Fin 0)).
Proof.
  intros Hty Hne Hlen.
  rewrite (compute_loss_categorical self var ty codes logits Hty Hne Hlen).
  split; [reflexivity|]. intros Hmiss. unfold spec.categorical_loss.
  rewrite kept_none; [reflexivity|].
  eapply Forall_impl; [exact Hmiss|]. intros c ->. reflexivity.
Qed.

Lemma categorical_loss_masks_missing_witness :
  compute_loss example.mixed "c" (spec.encode [1; -1; 0]%Z)
               [[Fin 0; Fin 1]; [Fin 0; Fin 1]; [Fin 0; Fin 1]] =
  spec.categorical_loss [[Fin 0; Fin 1]; [Fin 0; Fin 1]; [Fin 0; Fin 1]]
                        [1; -1; 0]%Z.
Proof.
  apply (categorical_loss_masks_missing example.mixed "c" "categorical");
    [reflexivity | discriminate | reflexivity].
Defined.

(** ** The total loss *)

Lemma mapM_weighted self (lv : string -> scalar) (losses : py.dict scalar) :
  (forall name loss, (name, loss) ∈ losses ->
                     log_vars self !! name = Some (lv name)) ->
  mapM (fun '(name, loss) => weighted_loss self name loss) losses =
  Some (map (fun t => sadd (smul (sexp (sneg (lv t.1))) t.2) (lv t.1)) losses).
Proof.
  induction losses as [|[name loss] losses IH]; intros H; [reflexivity|].
  cbn [mapM]. rewrite IH by (intros n l Hin; apply (H n l); now right).
  unfold weighted_loss. rewrite (H name loss) by left. reflexivity.
Qed.

(** C4: with uncertainty weighting enabled and more than one task,
    [compute_total_loss] returns the sum over the tasks of
    exp(-log_var) * loss + log_var; with weighting disabled or a single
    task it returns the plain sum of the losses. *)
Theorem total_loss_weighting self (lv : string -> scalar)
    (losses : py.dict scalar) :
  (use_loss_weighting self = true -> (1 < length losses)%nat ->
   forall name loss, (name, loss) ∈ losses ->
                     log_vars self !! name = Some (lv name)) ->
  compute_total_loss self losses =
  Some (if use_loss_weighting self && (1 <? length losses)%nat
        then spec.weighted_total lv losses
        else spec.plain_total losses).
Proof.
  intros H. unfold compute_total_loss.
  destruct (use_loss_weighting self) eqn:Hw; simpl.
  - destruct (1 <? length losses)%nat eqn:Hlen.
    + apply Nat.ltb_lt in Hlen.
      rewrite (mapM_weighted self lv) by (apply H; [reflexivity|exact Hlen]).
      simpl. now rewrite py_sum_Sigma.
    + now rewrite py_sum_Sigma.
  - now rewrite py_sum_Sigma.
Qed.

Lemma two_tasks_log_vars name loss :
  (name, loss) ∈ [("a", Fin 1); ("b", Fin 1)] ->
  log_vars example.two_tasks !! name = Some (Fin 1).
Proof.
  intros Hin. apply elem_of_cons in Hin as [[= -> ->]|Hin]; [reflexivity|].
  apply list_elem_of_singleton in Hin as [= -> ->]. reflexivity.
Qed.

Lemma total_loss_weighting_witness :
  compute_total_loss example.two_tasks [("a", Fin 1); ("b", Fin 1)] =
  Some (spec.weighted_total (fun _ => Fin 1) [("a", Fin 1); ("b", Fin 1)]).
Proof.
  apply (total_loss_weighting example.two_tasks (fun _ => Fin 1)
           [("a", Fin 1); ("b", Fin 1)]).
  intros _ _. exact two_tasks_log_vars.
Defined.

(** C5: with a single task the total loss is that task's unweighted loss,
    whether or not uncertainty weighting is enabled and whatever the task's
    log-variance is. *)
Theorem single_task_total_is_its_loss self name loss :
  compute_total_loss self [(name, loss)] = Some loss.
Proof.
  unfold compute_total_loss. simpl. rewrite andb_false_r.
  simpl. f_equal. apply sadd_0_l.
Qed.

(** ** The training and validation steps *)

Lemma lookup_forward self data var :
  forward self data !! var =
  (fun mlp => mlp_forward mlp (training self)
                (gnn_forward (encoders self) (training self) data))
    <$> MLPs self !! var.
Proof.
  unfold forward. cbv zeta.
  apply (map_fold_weak_ind
           (fun (r : gmap string matrix) (m : gmap string MLP) =>
              r !! var = (fun mlp => mlp_forward mlp (training self)
                (gnn_forward (encoders self) (training self) data))
                         <$> m !! var)).
  - now rewrite !lookup_empty.
  - intros i mlp m r Hi IH.
    destruct (decide (i = var)) as [->|Hne].
    + now rewrite !lookup_insert_eq.
    + now rewrite !lookup_insert_ne.
Qed.

Lemma step_losses_get self batch losses var :
  step_losses self batch = Some losses ->
  var ∈ variables self ->
  py.get var losses = variable_loss self (forward self batch) batch var.
Proof. intros H. now apply collect_losses_get. Qed.

Lemma no_event_filter {A} (events : vector) (l : list A) :
  Forall (fun e => e = Fin 0) events ->
  filter (fun s : A * scalar => Is_true (modules.is_event s.2)) (zip l events)
  = [].
Proof.
  intros Hev. revert l. induction Hev as [|e events -> _ IH]; intros [|a l];
    try reflexivity.
  cbn [zip zip_with]. rewrite filter_cons. simpl.
  unfold modules.is_event. simpl. rewrite Reqb_refl. simpl. apply IH.
Qed.

Lemma cox_ph_loss_no_event risk_scores durations events :
  Forall (fun e => e = Fin 0) events ->
  modules.cox_ph_loss risk_scores durations events = Fin 0.
Proof.
  intros Hev. unfold modules.cox_ph_loss. cbv zeta.
  now rewrite no_event_filter.
Qed.

(** C9: on a batch whose event indicator is zero for every sample, the Cox
    partial-likelihood loss computed for the survival-event variable is
    exactly zero, and zero is what the step records for that variable. *)
Theorem survival_loss_zero_without_events self batch var time_var mlp
    durations events :
  surv_event_var self = Some var ->
  surv_time_var self = Some time_var ->
  MLPs self !! var = Some mlp ->
  batch_y_dict batch time_var = Some durations ->
  batch_y_dict batch var = Some events ->
  Forall (fun e => e = Fin 0) events ->
  variable_loss self (forward self batch) batch var = Some (Fin 0) /\
  forall losses,
    step_losses self batch = Some losses -> var ∈ variables self ->
    py.get var losses = Some (Fin 0).
Proof.
  intros Hev Htm Hmlp Hdur Hevents Hzero.
  assert (Hloss : variable_loss self (forward self batch) batch var
                  = Some (Fin 0)).
  { unfold variable_loss. rewrite Hev.
    destruct (decide (Some var = Some var)) as [_|Hne]; [|contradiction].
    rewrite Htm. simpl. rewrite Hdur, Hevents. simpl.
    rewrite lookup_forward, Hmlp. simpl.
    now rewrite cox_ph_loss_no_event. }
  split; [exact Hloss|].
  intros losses Hstep Hin. now rewrite (step_losses_get _ _ _ _ Hstep Hin).
Qed.

Lemma survival_loss_zero_without_events_witness :
  variable_loss example.survival
    (forward example.survival example.censored_batch)
    example.censored_batch "e" = Some (Fin 0).
Proof.
  apply (survival_loss_zero_without_events
           example.survival example.censored_batch "e" "t"
           (example.const_head [Fin 0]) [Fin 5; Fin 7] [Fin 0; Fin 0]);
    try reflexivity.
  repeat constructor.
Defined.

(** C1, as amended: [validation_step] returns the plain sum of the
    per-variable losses whether or not uncertainty weighting is enabled; this
    is the total of [compute_total_loss] on the same losses when weighting is
    disabled or at most one task is present. *)
Theorem validation_total_is_plain_sum self batch losses :
  step_losses self batch = Some losses ->
  (exists logged,
     validation_step self batch = Some (spec.plain_total losses, logged)) /\
  (use_loss_weighting self = false \/ (length losses <= 1)%nat ->
   compute_total_loss self losses = Some (spec.plain_total losses)).
Proof.
  intros Hstep. split.
  - unfold validation_step. rewrite Hstep. simpl.
    rewrite py_sum_Sigma. eauto.
  - intros Hcase. unfold compute_total_loss.
    replace (use_loss_weighting self && (1 <? length losses)%nat) with false.
    + now rewrite py_sum_Sigma.
    + symmetry. apply andb_false_iff.
      destruct Hcase as [->|Hlen]; [now left|right].
      apply Nat.ltb_ge. exact Hlen.
Qed.

Lemma two_tasks_plain_losses :
  step_losses example.two_tasks_plain example.two_tasks_batch =
  Some [("a", Fin 1); ("b", Fin 1)].
Proof. vm_compute. Rdecide. repeat f_equal; lra. Qed.

Lemma validation_total_is_plain_sum_witness :
  (exists logged,
     validation_step example.two_tasks_plain example.two_tasks_batch =
     Some (spec.plain_total [("a", Fin 1); ("b", Fin 1)], logged)) /\
  compute_total_loss example.two_tasks_plain [("a", Fin 1); ("b", Fin 1)] =
  Some (spec.plain_total [("a", Fin 1); ("b", Fin 1)]).
Proof.
  destruct (validation_total_is_plain_sum
              example.two_tasks_plain example.two_tasks_batch
              [("a", Fin 1); ("b", Fin 1)] two_tasks_plain_losses)
    as [Hval Htotal].
  split; [exact Hval|]. apply Htotal. left. reflexivity.
Defined.

Lemma two_tasks_losses :
  step_losses example.two_tasks example.two_tasks_batch =
  Some [("a", Fin 1); ("b", Fin 1)].
Proof. vm_compute. Rdecide. repeat f_equal; lra. Qed.

Lemma two_tasks_weighted :
  compute_total_loss example.two_tasks [("a", Fin 1); ("b", Fin 1)] =
  Some (Fin (2 * exp (- 1) + 2)).
Proof.
  unfold compute_total_loss.
  change (use_loss_weighting example.two_tasks && (1 <? 2)%nat) with true.
  cbv iota.
  rewrite (mapM_weighted example.two_tasks (fun _ => Fin 1))
    by exact two_tasks_log_vars.
  simpl. unfold py.sum. simpl.
  replace (Ropp 1) with (-1)%R by lra. do 2 f_equal. lra.
Qed.

(** C1, as stated, fails: with two tasks of loss 1 and learned log-variances
    1, the validation total is 2 while the weighted total on the same losses
    is 2 exp(-1) + 2. *)
Lemma validation_total_ignores_weighting :
  step_losses example.two_tasks example.two_tasks_batch =
    Some [("a", Fin 1); ("b", Fin 1)] /\
  fst <$> validation_step example.two_tasks example.two_tasks_batch =
    Some (Fin 2) /\
  compute_total_loss example.two_tasks [("a", Fin 1); ("b", Fin 1)] =
    Some (Fin (2 * exp (- 1) + 2)) /\
  Fin (2 * exp (- 1) + 2) <> Fin 2.
Proof.
  split; [exact two_tasks_losses|]. split; [|split].
  - unfold validation_step. rewrite two_tasks_losses. simpl.
    unfold py.sum. simpl. do 2 f_equal. lra.
  - exact two_tasks_weighted.
  - intros [= H]. pose proof (exp_pos (- 1)). lra.
Qed.

(** ** Inference *)

Lemma first_batch_all (l : list Data) :
  l <> [] -> DataLoader.first_batch l (length l) = Some l.
Proof.
  intros Hne. unfold DataLoader.first_batch.
  destruct (decide (length l = 0%nat)) as [H0|_].
  - destruct l; [contradiction|discriminate].
  - rewrite firstn_all. destruct l; [contradiction|reflexivity].
Qed.

Lemma eval_forward self data var :
  forward (eval self) data !! var =
  (fun mlp => mlp_forward mlp false (gnn_forward (encoders self) false data))
    <$> MLPs self !! var.
Proof. now rewrite lookup_forward. Qed.

Lemma mapM_argmax (y_pred : matrix) :
  Forall (fun row => row <> []) y_pred ->
  exists classes,
    mapM np.argmax y_pred = Some classes /\
    Forall2 (fun row c => np.argmax row = Some c) y_pred classes.
Proof.
  intros Hrows.
  destruct (mapM_is_Some_2 np.argmax y_pred) as [classes Hc].
  - eapply Forall_impl; [exact Hrows|]. intros [|a row] Hne; [contradiction|].
    simpl. eauto.
  - exists classes. split; [exact Hc|]. now apply mapM_Some_1.
Qed.

Lemma predict_variable_spec self dataset var mlp ty :
  MLPs self !! var = Some mlp ->
  variable_types self !! var = Some ty ->
  (ty = "categorical" ->
   Forall (fun row => row <> []) (spec.head_output self dataset mlp)) ->
  exists p,
    predict_variable (eval self) (forward (eval self) (items dataset)) var
    = Some p /\
    spec.predicted ty (spec.head_output self dataset mlp) p.
Proof.
  intros Hmlp Hty Hrows. unfold predict_variable, spec.predicted.
  rewrite eval_forward, Hmlp. simpl. rewrite Hty. simpl.
  fold (spec.head_output self dataset mlp).
  destruct (String.eqb_spec ty "categorical") as [Hc|_].
  - destruct (mapM_argmax _ (Hrows Hc)) as (classes & -> & Hall).
    simpl. eauto.
  - eauto.
Qed.

Lemma predict_spec self dataset :
  items dataset <> [] ->
  spec.heads_ready self dataset ->
  exists predictions,
    predict self dataset = Some (eval self, predictions) /\
    forall var, var ∈ variables self ->
      exists mlp ty p,
        MLPs self !! var = Some mlp /\
        variable_types self !! var = Some ty /\
        predictions !! var = Some p /\
        spec.predicted ty (spec.head_output self dataset mlp) p.
Proof.
  intros Hne Hready. unfold predict. cbv zeta.
  rewrite (first_batch_all _ Hne). simpl.
  destruct (collect_insert
              (predict_variable (eval self)
                 (forward (eval self) (items dataset)))
              (fun _ p => p) (variables self)) as (predictions & Hfold & Hlook).
  { intros v Hv. destruct (Hready v Hv) as (mlp & ty & Hmlp & Hty & Hrows).
    destruct (predict_variable_spec self dataset v mlp ty Hmlp Hty Hrows)
      as (p & Hp & _). rewrite Hp. eauto. }
  exists predictions. split.
  - simpl in Hfold. rewrite Hfold. reflexivity.
  - intros var Hvar.
    destruct (Hready var Hvar) as (mlp & ty & Hmlp & Hty & Hrows).
    destruct (predict_variable_spec self dataset var mlp ty Hmlp Hty Hrows)
      as (p & Hp & Hpred).
    exists mlp, ty, p. rewrite (Hlook var Hvar), Hp. auto.
Qed.

Lemma transform_spec self dataset :
  items dataset <> [] ->
  length (samples dataset) = length (items dataset) ->
  length (gnn_forward (encoders self) false (items dataset))
  = length (items dataset) ->
  Forall (fun row => length row = gnn_output_dim (encoders self))
         (gnn_forward (encoders self) false (items dataset)) ->
  transform self dataset = Some (eval self, spec.embedding_table self dataset)
  /\ pd.columns (spec.embedding_table self dataset)
     = spec.column_labels (gnn_output_dim (encoders self)).
Proof.
  intros Hne Hsamples Hrows Hwidth. unfold transform. cbv zeta.
  rewrite (first_batch_all _ Hne). simpl.
  unfold spec.embedding_table. cbv zeta.
  set (E := gnn_forward (encoders self) false (items dataset)) in *.
  assert (Hshape : np.shape1 E = gnn_output_dim (encoders self)).
  { destruct E as [|row E'].
    - destruct (items dataset); [contradiction|discriminate].
    - simpl. now inversion Hwidth. }
  split; [|simpl; now rewrite Hshape].
  unfold pd.new_DataFrame.
  destruct (decide (length (samples dataset) = length E)) as [_|Hbad];
    [|congruence].
  replace (forallb _ E) with true; [reflexivity|].
  symmetry. apply forallb_forall. intros row Hin.
  apply Nat.eqb_eq. rewrite length_map, length_seq, Hshape.
  rewrite Forall_forall in Hwidth. apply Hwidth. now apply list_elem_of_In.
Qed.

Lemma sample_wise_ready self dataset enc heads :
  spec.sample_wise self enc heads -> spec.heads_ready self dataset.
Proof.
  intros (Henc & _ & Hheads) var Hvar.
  destruct (Hheads var Hvar) as (mlp & ty & Hmlp & Hty & Hrow & Hne).
  exists mlp, ty. repeat split; try assumption.
  intros Hc. unfold spec.head_output. rewrite Hrow.
  apply Forall_forall. intros row Hin.
  apply elem_of_map in Hin as (e & -> & _). now apply Hne.
Qed.

Lemma predicted_reported ty (heads : vector -> vector) (enc : Data -> vector)
    (l : list Data) p i g :
  l !! i = Some g ->
  spec.predicted ty (map heads (map enc l)) p ->
  spec.reported ty (heads (enc g)) p i.
Proof.
  intros Hi. unfold spec.predicted, spec.reported.
  assert (Hrow : map heads (map enc l) !! i = Some (heads (enc g))).
  { change (map heads (map enc l)) with (heads <$> (enc <$> l)).
    now rewrite !list_lookup_fmap, Hi. }
  destruct (String.eqb ty "categorical").
  - intros (classes & -> & Hall).
    destruct (Forall2_lookup_l _ _ _ _ _ Hall Hrow) as (c & Hc & Harg).
    eauto.
  - intros ->. eauto.
Qed.

Lemma mixed_heads_ready :
  spec.heads_ready example.mixed example.mixed_dataset.
Proof.
  intros var Hvar. apply elem_of_cons in Hvar as [->|Hvar].
  - exists (example.const_head [Fin 3]), "numerical".
    repeat split; try reflexivity. discriminate.
  - apply list_elem_of_singleton in Hvar as ->.
    exists (example.const_head [Fin 0; Fin 1]), "categorical".
    repeat split; try reflexivity. intros _. now repeat constructor.
Qed.

Lemma mixed_sample_wise :
  spec.sample_wise example.mixed example.embed example.mixed_heads.
Proof.
  split; [intros batch; reflexivity|]. split.
  - intros g. unfold example.embed.
    destruct (x g) as [|[|a [|b row]] rows]; reflexivity.
  - intros var Hvar. apply elem_of_cons in Hvar as [->|Hvar].
    + exists (example.const_head [Fin 3]), "numerical".
      repeat split; try reflexivity. discriminate.
    + apply list_elem_of_singleton in Hvar as ->.
      exists (example.const_head [Fin 0; Fin 1]), "categorical".
      repeat split; try reflexivity. intros _ e. discriminate.
Qed.

(** C6: [predict] runs the whole dataset as a single batch in evaluation
    mode, changes no parameter, and returns for every variable the arg-max
    class index of the logits when the variable is categorical and the raw
    output of the head otherwise. *)
Theorem predict_full_batch_in_eval_mode self dataset :
  items dataset <> [] ->
  spec.heads_ready self dataset ->
  exists predictions,
    DataLoader.first_batch (items dataset) (length (items dataset))
      = Some (items dataset) /\
    predict self dataset = Some (eval self, predictions) /\
    training (eval self) = false /\
    encoders (eval self) = encoders self /\
    MLPs (eval self) = MLPs self /\
    log_vars (eval self) = log_vars self /\
    forall var, var ∈ variables self ->
      exists mlp ty p,
        MLPs self !! var = Some mlp /\
        variable_types self !! var = Some ty /\
        predictions !! var = Some p /\
        spec.predicted ty (spec.head_output self dataset mlp) p.
Proof.
  intros Hne Hready.
  destruct (predict_spec self dataset Hne Hready) as (predictions & Hp & Hv).
  exists predictions. split; [now apply first_batch_all|].
  split; [exact Hp|]. repeat (split; [reflexivity|]). exact Hv.
Qed.

Lemma predict_full_batch_in_eval_mode_witness :
  exists predictions,
    predict example.mixed example.mixed_dataset =
    Some (eval example.mixed, predictions).
Proof.
  destruct (predict_full_batch_in_eval_mode
              example.mixed example.mixed_dataset)
    as (predictions & _ & H & _).
  - discriminate.
  - exact mixed_heads_ready.
  - exists predictions. exact H.
Defined.

(** C7: after [predict] and then [transform] on the same dataset, position i
    of every prediction array and row i of the embedding table belong to the
    same sample, the i-th of the dataset. *)
Theorem predict_then_transform_same_order self dataset enc heads :
  items dataset <> [] ->
  length (samples dataset) = length (items dataset) ->
  spec.sample_wise self enc heads ->
  exists self1 predictions self2 df,
    predict self dataset = Some (self1, predictions) /\
    transform self1 dataset = Some (self2, df) /\
    forall i id g,
      samples dataset !! i = Some id ->
      items dataset !! i = Some g ->
      pd.index df !! i = Some id /\
      pd.values df !! i = Some (enc g) /\
      forall var, var ∈ variables self ->
        exists ty p,
          variable_types self !! var = Some ty /\
          predictions !! var = Some p /\
          spec.reported ty (heads var (enc g)) p i.
Proof.
  intros Hne Hsamples Hwise.
  destruct (predict_spec self dataset Hne
              (sample_wise_ready self dataset enc heads Hwise))
    as (predictions & Hpredict & Hvars).
  destruct Hwise as (Henc & Hwidth & Hheads).
  destruct (transform_spec (eval self) dataset) as [Htransform _];
    try assumption.
  { simpl. rewrite Henc. apply length_map. }
  { simpl. rewrite Henc. apply Forall_forall. intros row Hin.
    apply elem_of_map in Hin as (g & -> & _). apply Hwidth. }
  exists (eval self), predictions, (eval (eval self)),
         (spec.embedding_table (eval self) dataset).
  split; [exact Hpredict|]. split; [exact Htransform|].
  intros i id g Hid Hg. simpl. split; [exact Hid|]. split.
  - rewrite Henc. change (map enc (items dataset)) with (enc <$> items dataset).
    now rewrite list_lookup_fmap, Hg.
  - intros var Hvar.
    destruct (Hvars var Hvar) as (mlp & ty & p & Hmlp & Hty & Hp & Hpred).
    destruct (Hheads var Hvar) as (mlp' & ty' & Hmlp' & Hty' & Hrow & _).
    assert (mlp' = mlp) as -> by congruence.
    exists ty, p. repeat split; try assumption.
    unfold spec.head_output in Hpred. rewrite Hrow, Henc in Hpred.
    now apply (predicted_reported ty (heads var) enc (items dataset)).
Qed.

Lemma predict_then_transform_same_order_witness :
  exists self1 predictions self2 df,
    predict example.mixed example.mixed_dataset = Some (self1, predictions) /\
    transform self1 example.mixed_dataset = Some (self2, df).
Proof.
  destruct (predict_then_transform_same_order
              example.mixed example.mixed_dataset
              example.embed example.mixed_heads)
    as (self1 & predictions & self2 & df & Hp & Ht & _).
  - discriminate.
  - reflexivity.
  - exact mixed_sample_wise.
  - exists self1, predictions, self2, df. split; [exact Hp|exact Ht].
Defined.

(** C8: [transform] returns the encoder output as a table with one row per
    sample, indexed by the sample identifiers in dataset order, with one
    labelled column per latent dimension; the table is the same for every
    model that has the same encoder, whatever its heads. *)
Theorem transform_embedding_table self dataset :
  items dataset <> [] ->
  length (samples dataset) = length (items dataset) ->
  length (gnn_forward (encoders self) false (items dataset))
  = length (items dataset) ->
  Forall (fun row => length row = gnn_output_dim (encoders self))
         (gnn_forward (encoders self) false (items dataset)) ->
  exists df,
    transform self dataset = Some (eval self, df) /\
    pd.values df = gnn_forward (encoders self) false (items dataset) /\
    pd.index df = samples dataset /\
    length (pd.values df) = length (samples dataset) /\
    pd.columns df = spec.column_labels (gnn_output_dim (encoders self)) /\
    forall other,
      encoders other = encoders self ->
      snd <$> transform other dataset = Some df.
Proof.
  intros Hne Hsamples Hrows Hwidth.
  destruct (transform_spec self dataset Hne Hsamples Hrows Hwidth)
    as [Htransform Hcols].
  exists (spec.embedding_table self dataset).
  split; [exact Htransform|]. split; [reflexivity|]. split; [reflexivity|].
  split; [simpl; congruence|]. split; [exact Hcols|].
  intros other Henc.
  destruct (transform_spec other dataset) as [Hother _]; try assumption.
  - now rewrite Henc.
  - now rewrite Henc.
  - rewrite Hother. simpl. unfold spec.embedding_table. now rewrite Henc.
Qed.

Lemma transform_embedding_table_witness :
  exists df,
    transform example.mixed example.mixed_dataset =
      Some (eval example.mixed, df) /\
    pd.index df = ["s1"; "s2"] /\
    pd.columns df = ["E0"; "E1"].
Proof.
  destruct (transform_embedding_table example.mixed example.mixed_dataset)
    as (df & Ht & _ & Hi & _ & Hc & _).
  - discriminate.
  - reflexivity.
  - reflexivity.
  - repeat constructor.
  - exists df. split; [exact Ht|]. split; [exact Hi|exact Hc].
Defined.

(** ** Construction *)

Lemma length_unique col : length (np.unique col) = length (remove_dups col).
Proof.
  unfold np.unique. apply Permutation_length, merge_sort_Permutation.
Qed.

(** A value that occurs in a column is one of its distinct values. *)
Lemma unique_counts_sentinel (m : scalar) (col : vector) :
  m ∈ col ->
  length (np.unique col) =
  S (length (np.unique (filter (fun a => a <> m) col))).
Proof.
  intros Hin. rewrite !length_unique.
  change (S (length (remove_dups (filter (fun a => a <> m) col))))
    with (length (m :: remove_dups (filter (fun a => a <> m) col))).
  apply Permutation_length, NoDup_Permutation.
  - apply NoDup_remove_dups.
  - constructor; [|apply NoDup_remove_dups].
    rewrite elem_of_remove_dups, list_elem_of_filter. tauto.
  - intros a. rewrite elem_of_cons, !elem_of_remove_dups, list_elem_of_filter.
    destruct (decide (a = m)) as [->|Hne]; tauto.
Qed.

Lemma argmax_from_last best_i i n :
  np.argmax_from best_i (Fin 0) i (replicate n (Fin 0) ++ [Fin 1])
  = (i + n)%nat.
Proof.
  revert best_i i. induction n as [|n IH]; intros best_i i; simpl.
  - unfold np.better. simpl. rewrite Rltb_0_1. lia.
  - unfold np.better. simpl. rewrite Rltb_irrefl, IH. lia.
Qed.

Lemma argmax_last_hot n : np.argmax (example.last_hot n) = Some n.
Proof.
  unfold example.last_hot. destruct n as [|n]; [reflexivity|].
  simpl. now rewrite argmax_from_last.
Qed.

Lemma length_last_hot n : length (example.last_hot n) = S n.
Proof.
  unfold example.last_hot. rewrite length_app, length_replicate. simpl. lia.
Qed.

Section construction_facts.
Variable init_GNNs :
  nat -> Z -> nat -> string -> option string -> bool -> Batch -> matrix.
Variable init_MLP : string -> nat -> nat -> nat -> bool -> matrix -> matrix.
Variable parameter_dict_attribute : string -> bool.
Variable module_dict_attribute : string -> bool.

Lemma init_spec config dataset tv bv ev tm w dt ct :
  items dataset <> [] ->
  (forall v, v ∈ init_variables (init_target_variables tv ev tm) bv ->
             is_Some (num_class (mo_variable_types (multiomic_dataset dataset))
                                (mo_ann (multiomic_dataset dataset)) v)) ->
  (forall v, v ∈ init_variables (init_target_variables tv ev tm) bv ->
             valid_key module_dict_attribute v = true) ->
  (w = true ->
   forall v, v ∈ init_variables (init_target_variables tv ev tm) bv ->
             valid_key parameter_dict_attribute v = true) ->
  exists self,
    init init_GNNs init_MLP parameter_dict_attribute module_dict_attribute
         config dataset tv bv ev tm w dt ct = Some self /\
    variables self = init_variables (init_target_variables tv ev tm) bv /\
    variable_types self = mo_variable_types (multiomic_dataset dataset) /\
    ann self = mo_ann (multiomic_dataset dataset) /\
    forall v, v ∈ variables self ->
      MLPs self !! v =
      new_MLP init_MLP v (latent_dim config) (supervisor_hidden_dim config)
        <$> num_class (variable_types self) (ann self) v.
Proof.
  intros Hne Hnum Hmod Hpar. unfold init. cbv zeta.
  assert (Hlv : is_Some
            (if w
             then foldl (fun acc var =>
                           lv ← acc;
                           u ← guard_key parameter_dict_attribute var;
                           Some (<[var := Fin 0]> lv))
                        (Some (∅ : gmap string scalar))
                        (init_variables (init_target_variables tv ev tm) bv)
             else Some ∅)).
  { destruct w; [|eauto].
    destruct (collect_insert (guard_key parameter_dict_attribute)
                (fun (_ : string) (_ : unit) => Fin 0)
                (init_variables (init_target_variables tv ev tm) bv))
      as (lv & Hfold & _).
    - intros v Hv. apply guard_key_is_Some. now apply Hpar.
    - rewrite Hfold. eauto. }
  destruct Hlv as [lv ->]. simpl.
  destruct (items dataset) as [|d0 rest] eqn:Hitems; [contradiction|].
  simpl.
  destruct (collect_insert
              (head_outputs (mo_variable_types (multiomic_dataset dataset))
                            (mo_ann (multiomic_dataset dataset))
                            module_dict_attribute)
              (fun var n => new_MLP init_MLP var (latent_dim config)
                                    (supervisor_hidden_dim config) n)
              (init_variables (init_target_variables tv ev tm) bv))
    as (mlps & Hfold & Hlook).
  { intros v Hv. apply head_outputs_is_Some. split; [now apply Hnum|].
    now apply Hmod. }
  rewrite Hfold. simpl. eexists. split; [reflexivity|]. simpl.
  repeat split. intros v Hv. rewrite (Hlook v Hv).
  now rewrite head_outputs_valid by now apply Hmod.
Qed.
End construction_facts.


Lemma labelled_num_class v :
  v ∈ init_variables (init_target_variables ["c"] None None) None ->
  is_Some (num_class
             (mo_variable_types (multiomic_dataset example.labelled_dataset))
             (mo_ann (multiomic_dataset example.labelled_dataset)) v).
Proof.
  intros Hv. apply list_elem_of_singleton in Hv as ->.
  exists (length (np.unique [Fin 0; Fin 1; Fin (-1)])). reflexivity.
Qed.

Lemma labelled_valid_key v :
  v ∈ init_variables (init_target_variables ["c"] None None) None ->
  valid_key example.module_attribute v = true.
Proof. intros Hv. apply list_elem_of_singleton in Hv as ->. reflexivity. Qed.

(** Names that the torch containers refuse as keys. *)
Example refused_keys :
  valid_key example.module_attribute "drug.response" = false /\
  valid_key example.module_attribute "type" = false /\
  valid_key example.module_attribute EmptyString = false /\
  valid_key example.module_attribute "drug_response" = true.
Proof. repeat split. Qed.


(** The column [0; 1; -1] has two valid classes and three distinct values. *)
Example labelled_column_unique :
  length (np.unique [Fin 0; Fin 1; Fin (-1)]) = 3%nat.
Proof.
  rewrite (unique_counts_sentinel (Fin (-1))) by (do 2 right; left).
  rewrite length_unique. f_equal.
  rewrite !filter_cons.
  destruct (decide (Fin 0 <> Fin (-1))) as [_|H];
    [|exfalso; apply H; intros [= ?]; lra].
  destruct (decide (Fin 1 <> Fin (-1))) as [_|H];
    [|exfalso; apply H; intros [= ?]; lra].
  destruct (decide (Fin (-1) <> Fin (-1))) as [H|_]; [contradiction|].
  rewrite filter_nil. simpl.
  destruct (decide_rel elem_of (Fin 0) [Fin 1]) as [H|_].
  - apply list_elem_of_singleton in H. injection H as H. lra.
  - reflexivity.
Qed.

(** * Further properties of the code *)

(** ** The mask of [compute_loss] *)

Lemma land_map {A} (f g : A -> bool) (l : list A) :
  torch.land (map f l) (map g l) = map (fun a => f a && g a) l.
Proof.
  unfold torch.land. induction l as [|a l IH]; [reflexivity|].
  cbn [map zip_with]. now rewrite IH.
Qed.

Lemma compute_loss_mask self var ty (y : vector) (y_hat : matrix) :
  variable_types self !! var = Some ty ->
  compute_loss self var y y_hat =
  if (0 <? torch.mask_sum (map (valid_label ty) y))%nat then
    y_hat' ← torch.select y_hat (map (valid_label ty) y);
    y' ← torch.select y (map (valid_label ty) y);
    loss_function ty y_hat' y'
  else Some (Fin 0).
Proof.
  intros Hty. unfold compute_loss, loss_function, valid_label.
  rewrite Hty. simpl.
  destruct (String.eqb ty "numerical").
  - unfold torch.lnot, torch.isnan. now rewrite map_map.
  - unfold torch.lnot, torch.isnan, torch.ne. rewrite map_map.
    now rewrite land_map.
Qed.

Lemma mask_sum_none {A} (f : A -> bool) (l : list A) :
  Forall (fun a => f a = false) l -> torch.mask_sum (map f l) = 0%nat.
Proof.
  intros H. unfold torch.mask_sum. induction H as [|a l Ha _ IH];
    [reflexivity|].
  cbn [map]. rewrite filter_cons. rewrite Ha. simpl. exact IH.
Qed.

Lemma mask_sum_some {A} (f : A -> bool) (l : list A) :
  Exists (fun a => f a = true) l -> (0 < torch.mask_sum (map f l))%nat.
Proof.
  intros H. unfold torch.mask_sum. induction H as [a l Ha|a l _ IH].
  - cbn [map]. rewrite filter_cons. rewrite Ha. simpl. lia.
  - cbn [map]. rewrite filter_cons. destruct (f a); simpl; lia.
Qed.

Lemma select_is_Some {A} (t : list A) (mask : list bool) :
  is_Some (torch.select t mask) <-> length t = length mask.
Proof.
  revert mask. induction t as [|a t IH]; intros [|b mask]; simpl.
  - split; eauto.
  - split; [intros [? ?]; discriminate|discriminate].
  - split; [intros [? ?]; discriminate|discriminate].
  - specialize (IH mask). destruct (torch.select t mask) as [r|]; simpl.
    + split; [intros _; f_equal; apply IH; eauto|eauto].
    + split; [intros [? ?]; discriminate|].
      intros [= Hlen]. apply IH in Hlen as [? ?]. discriminate.
Qed.

Lemma select_mismatch {A} (t : list A) (mask : list bool) :
  length t <> length mask -> torch.select t mask = None.
Proof.
  intros Hne. destruct (torch.select t mask) eqn:H; [|reflexivity].
  exfalso. apply Hne, select_is_Some. rewrite H. eauto.
Qed.

Lemma select_agree {A} (t t' : list A) (mask : list bool) :
  length t = length mask -> length t' = length mask ->
  (forall i, mask !! i = Some true -> t !! i = t' !! i) ->
  torch.select t mask = torch.select t' mask.
Proof.
  revert t t'. induction mask as [|b mask IH]; intros [|a t] [|a' t'];
    try discriminate; [reflexivity|].
  intros [= Hl] [= Hl'] H. simpl.
  rewrite (IH t t' Hl Hl') by (intros i Hi; exact (H (S i) Hi)).
  destruct b; [|reflexivity].
  specialize (H 0%nat eq_refl). simpl in H. injection H as ->. reflexivity.
Qed.

(** A batch without any valid label gives a zero loss whatever the shape of
    the predictions: nothing is indexed. *)
Theorem loss_zero_without_valid_label self var ty (y : vector)
    (y_hat : matrix) :
  variable_types self !! var = Some ty ->
  Forall (fun a => valid_label ty a = false) y ->
  compute_loss self var y y_hat = Some (Fin 0).
Proof.
  intros Hty Hy. rewrite (compute_loss_mask self var ty y y_hat Hty).
  now rewrite mask_sum_none.
Qed.

Lemma loss_zero_without_valid_label_witness :
  compute_loss example.mixed "c" [NaN; Fin (-1)] [[Fin 0]] = Some (Fin 0).
Proof.
  apply (loss_zero_without_valid_label example.mixed "c" "categorical");
    [reflexivity|].
  constructor; [reflexivity|]. constructor; [|constructor].
  unfold valid_label. simpl. now rewrite Reqb_refl.
Defined.

(** With at least one valid label, predictions whose first dimension differs
    from the number of labels make [compute_loss] raise. *)
Theorem loss_raises_on_shape_mismatch self var ty (y : vector)
    (y_hat : matrix) :
  variable_types self !! var = Some ty ->
  Exists (fun a => valid_label ty a = true) y ->
  length y_hat <> length y ->
  compute_loss self var y y_hat = None.
Proof.
  intros Hty Hy Hlen. rewrite (compute_loss_mask self var ty y y_hat Hty).
  pose proof (mask_sum_some _ _ Hy) as Hpos.
  apply Nat.ltb_lt in Hpos. rewrite Hpos.
  rewrite (select_mismatch y_hat); [reflexivity|]. now rewrite length_map.
Qed.

Lemma loss_raises_on_shape_mismatch_witness :
  compute_loss example.mixed "n" [Fin 1; NaN] [[Fin 0]] = None.
Proof.
  apply (loss_raises_on_shape_mismatch example.mixed "n" "numerical");
    [reflexivity| |simpl; lia].
  left. reflexivity.
Defined.

(** The predictions of the samples that the mask drops have no influence on
    the loss. *)
Theorem loss_ignores_masked_predictions self var ty (y : vector)
    (y_hat y_hat' : matrix) :
  variable_types self !! var = Some ty ->
  length y_hat = length y ->
  length y_hat' = length y ->
  (forall i a, y !! i = Some a -> valid_label ty a = true ->
               y_hat !! i = y_hat' !! i) ->
  compute_loss self var y y_hat = compute_loss self var y y_hat'.
Proof.
  intros Hty Hl Hl' H.
  rewrite !(compute_loss_mask self var ty y _ Hty).
  rewrite (select_agree y_hat y_hat' (map (valid_label ty) y));
    [reflexivity|now rewrite length_map|now rewrite length_map|].
  intros i Hi.
  change (map (valid_label ty) y) with (valid_label ty <$> y) in Hi.
  rewrite list_lookup_fmap in Hi.
  destruct (y !! i) as [a|] eqn:Ha; [|discriminate].
  injection Hi as Hi. exact (H i a Ha Hi).
Qed.

Lemma loss_ignores_masked_predictions_witness :
  compute_loss example.mixed "n" [Fin 1; NaN] [[Fin 0]; [Fin 7]] =
  compute_loss example.mixed "n" [Fin 1; NaN] [[Fin 0]; [Fin 9]].
Proof.
  apply (loss_ignores_masked_predictions example.mixed "n" "numerical");
    try reflexivity.
  intros [|[|i]] a Ha Hv; [reflexivity| |discriminate].
  injection Ha as <-. discriminate.
Defined.

(** ** The mean squared error *)

Lemma Sigma_squares (K : list (scalar * scalar)) :
  Forall (fun s => isnan s.1 = false /\ isnan s.2 = false) K ->
  exists r, spec.Sigma (map (fun s => F.sq_err s.1 s.2) K) = Fin r /\
            (0 <= r)%R /\
            (r = 0%R <-> Forall (fun s => s.1 = s.2) K).
Proof.
  induction 1 as [|[a b] K [Ha Hb] _ (r & Hr & Hpos & Hzero)].
  - exists 0%R. repeat split; try reflexivity; try lra. constructor.
  - destruct a as [|p]; [discriminate|]. destruct b as [|t]; [discriminate|].
    exists ((p - t) * (p - t) + r)%R. simpl. rewrite Hr. simpl.
    pose proof (Rle_0_sqr (p - t)) as Hsq. unfold Rsqr in Hsq.
    split; [reflexivity|]. split; [lra|]. split.
    + intros H0. assert (Hd : ((p - t) * (p - t) = 0)%R) by lra.
      apply Rmult_integral in Hd. assert (p = t) by lra. subst.
      constructor; [reflexivity|]. apply Hzero. lra.
    + intros Hall. inversion Hall as [|? ? Heq Hall']; subst.
      simpl in Heq. injection Heq as ->. apply Hzero in Hall'. subst. lra.
Qed.

Lemma kept_lookup {A B} (f : B -> bool) (t : list A) (y : list B) s :
  s ∈ spec.kept f t y <->
  exists i, t !! i = Some s.1 /\ y !! i = Some s.2 /\ f s.2 = true.
Proof.
  unfold spec.kept. rewrite list_elem_of_filter. split.
  - intros [Hf Hin].
    apply (elem_of_lookup_zip_with pair) in Hin as (i & a & b & -> & Ha & Hb).
    exists i. simpl in *. repeat split; try assumption.
    now apply Is_true_true.
  - intros (i & Ha & Hb & Hf). split; [now apply Is_true_true|].
    apply (elem_of_lookup_zip_with pair). exists i, s.1, s.2.
    destruct s. auto.
Qed.

(** For predictions that are numbers, the loss of a numerical variable is a
    non-negative number, and it is zero exactly when every sample with a
    valid label is predicted exactly. *)
Theorem numerical_loss_nonnegative self var (preds y : vector) :
  variable_types self !! var = Some "numerical" ->
  length preds = length y ->
  Forall (fun p => isnan p = false) preds ->
  exists r,
    compute_loss self var y (map (fun p => [p]) preds) = Some (Fin r) /\
    (0 <= r)%R /\
    (r = 0%R <->
     forall i p t, preds !! i = Some p -> y !! i = Some t ->
                   isnan t = false -> p = t).
Proof.
  intros Hty Hlen Hfin.
  rewrite (compute_loss_numerical self var preds y Hty Hlen).
  unfold spec.numerical_loss.
  set (f := fun a : scalar => negb (isnan a)).
  assert (Hperfect :
            Forall (fun s : scalar * scalar => s.1 = s.2) (spec.kept f preds y)
            <-> forall i p t, preds !! i = Some p -> y !! i = Some t ->
                              isnan t = false -> p = t).
  { rewrite Forall_forall. split.
    - intros H i p t Hp Ht Hnan. apply (H (p, t)). apply kept_lookup.
      exists i. simpl. repeat split; try assumption.
      unfold f. now rewrite Hnan.
    - intros H [p t] Hin. apply kept_lookup in Hin as (i & Hp & Ht & Hf).
      simpl in *. apply (H i p t Hp Ht). unfold f in Hf.
      now destruct (isnan t). }
  destruct (Sigma_squares (spec.kept f preds y)) as (r & Hr & Hpos & Hzero).
  { apply Forall_forall. intros [p t] Hin.
    apply kept_lookup in Hin as (i & Hp & Ht & Hf). simpl in *. split.
    - rewrite Forall_forall in Hfin. apply Hfin.
      apply list_elem_of_lookup. eauto.
    - unfold f in Hf. now destruct (isnan t). }
  destruct (spec.kept f preds y) as [|s K] eqn:HK.
  - exists 0%R. repeat split; try lra. intros _. apply Hperfect. constructor.
  - unfold spec.average. rewrite Hr. rewrite length_map.
    assert (Hn : (0 < INR (length (s :: K)))%R) by (apply lt_0_INR; simpl; lia).
    unfold sdiv, Reqb.
    destruct (Req_dec_T (INR (length (s :: K))) 0) as [H0|_]; [lra|].
    exists (r / INR (length (s :: K)))%R. split; [reflexivity|]. split.
    + apply Rmult_le_pos; [exact Hpos|]. left. now apply Rinv_0_lt_compat.
    + rewrite <- Hperfect, <- Hzero. split.
      * intros H. apply (Rmult_eq_compat_r (INR (length (s :: K)))) in H.
        unfold Rdiv in H. rewrite Rmult_assoc, Rinv_l in H by lra. lra.
      * intros ->. unfold Rdiv. lra.
Qed.

Lemma numerical_loss_nonnegative_witness :
  exists r,
    compute_loss example.two_tasks "a" [Fin 1; NaN] [[Fin 0]; [Fin 5]]
    = Some (Fin r) /\ (0 <= r)%R.
Proof.
  destruct (numerical_loss_nonnegative
              example.two_tasks "a" [Fin 0; Fin 5] [Fin 1; NaN])
    as (r & Hr & Hpos & _).
  - reflexivity.
  - reflexivity.
  - repeat constructor.
  - exists r. split; [exact Hr|exact Hpos].
Defined.

(** ** The total loss *)

(** [compute_total_loss] raises exactly when it weights the losses and one of
    the tasks has no log-variance parameter. *)
Theorem total_loss_defined_iff self (losses : py.dict scalar) :
  is_Some (compute_total_loss self losses) <->
  use_loss_weighting self = false \/ (length losses <= 1)%nat \/
  forall name loss, (name, loss) ∈ losses -> is_Some (log_vars self !! name).
Proof.
  unfold compute_total_loss.
  destruct (use_loss_weighting self); simpl; [|split; eauto].
  destruct (1 <? length losses)%nat eqn:Hlen.
  - apply Nat.ltb_lt in Hlen.
    assert (Hm : is_Some (mapM (fun '(name, loss) =>
                                  weighted_loss self name loss) losses)
                 <-> forall name loss, (name, loss) ∈ losses ->
                                       is_Some (log_vars self !! name)).
    { rewrite mapM_is_Some, Forall_forall. split.
      - intros H name loss Hin. specialize (H _ Hin). simpl in H.
        unfold weighted_loss in H.
        destruct (log_vars self !! name); [eauto|].
        destruct H as [? H]. discriminate.
      - intros H [name loss] Hin. simpl. unfold weighted_loss.
        destruct (H name loss Hin) as [s ->]. simpl. eauto. }
    destruct (mapM _ losses) as [terms|]; simpl.
    + split; [intros _; right; right; apply Hm; eauto|eauto].
    + split; [intros [? ?]; discriminate|].
      intros [?|[?|H]]; [discriminate|lia|].
      apply Hm in H as [? ?]. discriminate.
  - apply Nat.ltb_ge in Hlen. split; eauto.
Qed.

(** One weighted term exp(-s) * loss + s of a positive loss is a number that
    no log-variance s brings below 1 + ln loss, and s = ln loss is the one
    value that reaches it. *)
Theorem weighted_loss_lower_bound self name (s l : R) :
  log_vars self !! name = Some (Fin s) ->
  (0 < l)%R ->
  exists w,
    weighted_loss self name (Fin l) = Some (Fin w) /\
    (1 + ln l <= w)%R /\
    (w = (1 + ln l)%R <-> s = ln l).
Proof.
  intros Hs Hl. unfold weighted_loss. rewrite Hs. simpl.
  exists (exp (- s) * l + s)%R. split; [reflexivity|].
  assert (He : (exp (- s) * l = exp (ln l - s))%R).
  { unfold Rminus. rewrite Rplus_comm, exp_plus, exp_ln by exact Hl.
    reflexivity. }
  rewrite He. pose proof (exp_ineq1_le (ln l - s)) as Hle.
  split; [lra|]. split.
  - intros Heq. destruct (Req_dec_T (ln l - s) 0) as [H0|Hne]; [lra|].
    pose proof (exp_ineq1 (ln l - s) Hne). lra.
  - intros ->. replace (ln l - ln l)%R with 0%R by lra. rewrite exp_0. lra.
Qed.

Lemma weighted_loss_lower_bound_witness :
  exists w,
    weighted_loss example.two_tasks "a" (Fin 1) = Some (Fin w) /\
    (1 + ln 1 <= w)%R.
Proof.
  destruct (weighted_loss_lower_bound example.two_tasks "a" 1 1)
    as (w & Hw & Hle & _).
  - reflexivity.
  - lra.
  - exists w. split; [exact Hw|exact Hle].
Defined.

Lemma weighted_loss_zero_log_var self name loss :
  log_vars self !! name = Some (Fin 0) ->
  weighted_loss self name loss = Some loss.
Proof.
  intros Hs. unfold weighted_loss. rewrite Hs. simpl. f_equal.
  destruct loss as [|l]; [reflexivity|]. simpl. f_equal.
  rewrite Ropp_0, exp_0. lra.
Qed.

Lemma total_loss_zero_log_vars self (losses : py.dict scalar) :
  (forall name loss, (name, loss) ∈ losses ->
                     log_vars self !! name = Some (Fin 0)) ->
  compute_total_loss self losses = Some (spec.plain_total losses).
Proof.
  intros H. unfold compute_total_loss.
  destruct (use_loss_weighting self && (1 <? length losses)%nat).
  - replace (mapM _ losses) with (Some (py.values losses)).
    + simpl. now rewrite py_sum_Sigma.
    + symmetry. unfold py.values. clear -H.
      induction losses as [|[name loss] losses IH]; [reflexivity|].
      cbn [mapM map]. rewrite IH by (intros n l Hin; apply (H n l); now right).
      rewrite (weighted_loss_zero_log_var self name loss)
        by (apply (H name loss); left).
      reflexivity.
  - now rewrite py_sum_Sigma.
Qed.

(** ** The loop over the variables *)

Lemma keys_set {V} k (v : V) (d : py.dict V) :
  py.keys (py.set k v d) =
  if decide (k ∈ py.keys d) then py.keys d else py.keys d ++ [k].
Proof.
  unfold py.keys. induction d as [|[k' v'] d IH]; simpl.
  - destruct (decide (k ∈ [])) as [H|_]; [inversion H|reflexivity].
  - destruct (String.eqb_spec k' k) as [->|Hne]; simpl.
    + destruct (decide (k ∈ k :: map fst d)) as [_|H]; [reflexivity|].
      exfalso. apply H. left.
    + rewrite IH.
      destruct (decide (k ∈ map fst d)) as [Hin|Hnin];
        destruct (decide (k ∈ k' :: map fst d)) as [Hin'|Hnin'];
        try reflexivity.
      * exfalso. apply Hnin'. now right.
      * apply elem_of_cons in Hin' as [->|Hin']; contradiction.
Qed.

Lemma collect_losses_keys (f : string -> option scalar) (vars : list string)
    (losses : py.dict scalar) :
  foldl (fun acc var =>
           losses ← acc; loss ← f var; Some (py.set var loss losses))
        (Some []) vars = Some losses ->
  NoDup (py.keys losses) /\ forall v, v ∈ py.keys losses <-> v ∈ vars.
Proof.
  revert losses. induction vars as [|u vars IH] using rev_ind;
    intros losses Hfold.
  - injection Hfold as <-. split; [constructor|]. intros v. reflexivity.
  - rewrite foldl_snoc in Hfold.
    destruct (foldl _ _ vars) as [losses'|] eqn:Hprev; [|discriminate].
    simpl in Hfold. destruct (f u) as [loss|]; [|discriminate].
    simpl in Hfold. injection Hfold as <-.
    destruct (IH losses' eq_refl) as [Hnd Hkeys].
    rewrite keys_set. destruct (decide (u ∈ py.keys losses')) as [Hin|Hnin].
    + split; [exact Hnd|]. intros v. rewrite elem_of_app, Hkeys.
      split; [now left|]. intros [Hv|Hv]; [exact Hv|].
      apply list_elem_of_singleton in Hv as ->. now apply Hkeys.
    + split.
      * apply NoDup_app. split; [exact Hnd|]. split; [|apply NoDup_singleton].
        intros v Hv Hv'. apply list_elem_of_singleton in Hv' as ->.
        contradiction.
      * intros v. rewrite !elem_of_app, Hkeys. reflexivity.
Qed.

Lemma collect_losses_None (f : string -> option scalar) (vars : list string)
    (v : string) :
  v ∈ vars -> f v = None ->
  foldl (fun acc var =>
           losses ← acc; loss ← f var; Some (py.set var loss losses))
        (Some []) vars = None.
Proof.
  intros Hin Hv. induction vars as [|u vars IH] using rev_ind.
  - inversion Hin.
  - rewrite foldl_snoc. apply elem_of_app in Hin as [Hin|Hin].
    + now rewrite (IH Hin).
    + apply list_elem_of_singleton in Hin as ->.
      destruct (foldl _ _ vars); simpl; [now rewrite Hv|reflexivity].
Qed.

(** The losses of a step have one entry per distinct variable: a variable
    listed twice, as a target and as a batch variable, counts once in the
    total. *)
Theorem step_losses_one_entry_per_variable self batch losses :
  step_losses self batch = Some losses ->
  NoDup (py.keys losses) /\
  (forall v, v ∈ py.keys losses <-> v ∈ variables self) /\
  (length losses <= length (variables self))%nat.
Proof.
  intros Hstep. destruct (collect_losses_keys _ _ _ Hstep) as [Hnd Hkeys].
  split; [exact Hnd|]. split; [exact Hkeys|].
  replace (length losses) with (length (py.keys losses))
    by apply length_map.
  apply submseteq_length, NoDup_submseteq; [exact Hnd|].
  intros v Hv. now apply Hkeys.
Qed.


Lemma step_losses_one_entry_per_variable_witness :
  NoDup (py.keys [("a", Fin 1); ("b", Fin 1)]) /\
  (length [("a", Fin 1); ("b", Fin 1)]
   <= length (variables example.two_tasks))%nat.
Proof.
  destruct (step_losses_one_entry_per_variable
              example.two_tasks example.two_tasks_batch
              [("a", Fin 1); ("b", Fin 1)] two_tasks_losses)
    as (Hnd & _ & Hlen).
  split; [exact Hnd|exact Hlen].
Defined.

(** A model whose survival-event variable is among its variables but that has
    no survival-time variable cannot take a step: looking up the durations
    raises. *)
Theorem step_raises_without_time_variable self batch var :
  surv_event_var self = Some var ->
  surv_time_var self = None ->
  var ∈ variables self ->
  step_losses self batch = None /\
  training_step self batch = None /\
  validation_step self batch = None.
Proof.
  intros Hev Htm Hin.
  assert (Hstep : step_losses self batch = None).
  { unfold step_losses. apply (collect_losses_None _ _ var Hin).
    unfold variable_loss. rewrite Hev, Htm.
    destruct (decide (Some var = Some var)) as [_|Hne];
      [reflexivity|contradiction]. }
  unfold training_step, validation_step. now rewrite Hstep.
Qed.

Lemma step_raises_without_time_variable_witness :
  training_step more_examples.untimed example.censored_batch = None.
Proof.
  apply (step_raises_without_time_variable
           more_examples.untimed example.censored_batch "e");
    [reflexivity|reflexivity|left].
Defined.

(** ** Construction, continued *)

Lemma num_class_is_Some types annot v :
  is_Some (num_class types annot v) <->
  exists ty, types !! v = Some ty /\
             (ty <> "numerical" -> is_Some (annot !! v)).
Proof.
  unfold num_class. destruct (types !! v) as [ty|]; simpl.
  - destruct (String.eqb_spec ty "numerical") as [->|Hne].
    + split; [intros _; exists "numerical"; split; [reflexivity|]|eauto].
      intros H. contradiction.
    + destruct (annot !! v) as [col|]; simpl.
      * split; [intros _; exists ty; eauto|eauto].
      * split; [intros [? ?]; discriminate|].
        intros (ty' & [= <-] & H). destruct (H Hne) as [? ?]. discriminate.
  - split; [intros [? ?]; discriminate|]. intros (ty & ? & _). discriminate.
Qed.

Section construction_more.
Variable init_GNNs :
  nat -> Z -> nat -> string -> option string -> bool -> Batch -> matrix.
Variable init_MLP : string -> nat -> nat -> nat -> bool -> matrix -> matrix.
Variable parameter_dict_attribute : string -> bool.
Variable module_dict_attribute : string -> bool.

Lemma init_fields config dataset tv bv ev tm w dt ct self :
  init init_GNNs init_MLP parameter_dict_attribute module_dict_attribute
       config dataset tv bv ev tm w dt ct = Some self ->
  items dataset <> [] /\
  (forall v, v ∈ init_variables (init_target_variables tv ev tm) bv ->
             is_Some (num_class (mo_variable_types (multiomic_dataset dataset))
                                (mo_ann (multiomic_dataset dataset)) v)) /\
  (forall v, v ∈ init_variables (init_target_variables tv ev tm) bv ->
             valid_key module_dict_attribute v = true) /\
  (w = true ->
   forall v, v ∈ init_variables (init_target_variables tv ev tm) bv ->
             valid_key parameter_dict_attribute v = true) /\
  (forall v, v ∉ init_variables (init_target_variables tv ev tm) bv ->
             MLPs self !! v = None) /\
  variables self = init_variables (init_target_variables tv ev tm) bv /\
  use_loss_weighting self = w /\
  (forall v,
     log_vars self !! v =
     if w && bool_decide
               (v ∈ init_variables (init_target_variables tv ev tm) bv)
     then Some (Fin 0) else None) /\
  training self = true /\
  gnn_output_dim (encoders self) = latent_dim config.
Proof.
  intros Hinit. unfold init in Hinit. cbv zeta in Hinit.
  match type of Hinit with
  | (?e ≫= _) = _ => destruct e as [lv|] eqn:Hlv
  end; [|discriminate].
  simpl in Hinit.
  destruct (items dataset) as [|d0 rest] eqn:Hitems; [discriminate|].
  simpl in Hinit.
  match type of Hinit with
  | context [foldl ?f ?a ?l] => destruct (foldl f a l) as [mlps|] eqn:Hfold
  end; [|discriminate].
  simpl in Hinit. injection Hinit as <-. simpl.
  destruct (collect_insert_inv _ _ _ _ Hfold) as [Hg Hout].
  assert (Hkeys : forall v,
            v ∈ init_variables (init_target_variables tv ev tm) bv ->
            is_Some (num_class (mo_variable_types (multiomic_dataset dataset))
                               (mo_ann (multiomic_dataset dataset)) v) /\
            valid_key module_dict_attribute v = true).
  { intros v Hv. apply head_outputs_is_Some. now apply Hg. }
  split; [discriminate|]. split; [intros v Hv; now apply Hkeys|].
  split; [intros v Hv; now apply Hkeys|].
  destruct w.
  - destruct (collect_insert_inv _ _ _ _ Hlv) as [Hgl Houtl].
    destruct (collect_insert (guard_key parameter_dict_attribute)
                (fun (_ : string) (_ : unit) => Fin 0) _ Hgl)
      as (lv' & Hfold' & Hlook).
    assert (lv' = lv) as -> by congruence.
    split; [intros _ v Hv; now apply guard_key_is_Some, Hgl|].
    repeat split; try assumption; try reflexivity.
    intros v. simpl.
    destruct (decide (v ∈ init_variables (init_target_variables tv ev tm) bv))
      as [Hv|Hv].
    + rewrite bool_decide_eq_true_2 by exact Hv. rewrite (Hlook v Hv).
      destruct (Hgl v Hv) as [u ->]. reflexivity.
    + rewrite bool_decide_eq_false_2 by exact Hv. now apply Houtl.
  - injection Hlv as <-. split; [discriminate|].
    repeat split; try assumption; try reflexivity;
      intros v; apply lookup_empty.
Qed.



Lemma constructed_log_vars_aux config dataset tv bv ev tm w dt ct self :
  init init_GNNs init_MLP parameter_dict_attribute module_dict_attribute
       config dataset tv bv ev tm w dt ct = Some self ->
  use_loss_weighting self = w /\
  forall v,
    log_vars self !! v =
    if w && bool_decide (v ∈ variables self) then Some (Fin 0) else None.
Proof.
  intros Hinit.
  destruct (init_fields _ _ _ _ _ _ _ _ _ _ Hinit)
    as (_ & _ & _ & _ & _ & Hvars & Hw & Hlv & _).
  split; [exact Hw|]. intros v. now rewrite Hlv, Hvars.
Qed.


End construction_more.

Lemma fresh_constructed :
  init example.fresh_GNNs example.fresh_MLP example.module_attribute
       example.module_attribute example.cfg
       more_examples.numeric_dataset ["a"; "b"] None None None true None None
  = Some more_examples.fresh.
Proof. reflexivity. Qed.

Lemma fresh_losses :
  step_losses more_examples.fresh (items more_examples.numeric_dataset)
  = Some [("a", Fin 1); ("b", Fin 1)].
Proof. vm_compute. Rdecide. repeat f_equal; lra. Qed.




(** ** Inference, continued *)

(** [forward] returns one output per head and nothing else, each head
    reading the one embedding of the batch. *)
Theorem forward_one_output_per_head self data var :
  (is_Some (forward self data !! var) <-> is_Some (MLPs self !! var)) /\
  forall mlp, MLPs self !! var = Some mlp ->
    forward self data !! var =
    Some (mlp_forward mlp (training self)
            (gnn_forward (encoders self) (training self) data)).
Proof.
  rewrite lookup_forward. split.
  - destruct (MLPs self !! var); simpl; split; intros [? ?];
      try discriminate; eauto.
  - intros mlp ->. reflexivity.
Qed.

Lemma forward_one_output_per_head_witness :
  forward example.mixed example.two_tasks_batch !! "n" = Some [[Fin 3]].
Proof.
  destruct (forward_one_output_per_head
              example.mixed example.two_tasks_batch "n") as [_ H].
  apply (H (example.const_head [Fin 3])). reflexivity.
Defined.

Lemma predict_variable_is_Some self dataset var :
  is_Some (predict_variable (eval self)
             (forward (eval self) (items dataset)) var) <->
  exists mlp ty,
    MLPs self !! var = Some mlp /\
    variable_types self !! var = Some ty /\
    (ty = "categorical" ->
     Forall (fun row => row <> []) (spec.head_output self dataset mlp)).
Proof.
  split.
  - intros [p Hp]. unfold predict_variable in Hp.
    rewrite eval_forward in Hp.
    destruct (MLPs self !! var) as [mlp|]; [|discriminate]. simpl in Hp.
    destruct (variable_types self !! var) as [ty|]; [|discriminate].
    simpl in Hp. exists mlp, ty. repeat split. intros ->. simpl in Hp.
    fold (spec.head_output self dataset mlp) in Hp.
    destruct (mapM np.argmax (spec.head_output self dataset mlp))
      as [classes|] eqn:Hc; [|discriminate].
    assert (His : is_Some (mapM np.argmax (spec.head_output self dataset mlp)))
      by (rewrite Hc; eauto).
    apply mapM_is_Some_1 in His. eapply Forall_impl; [exact His|].
    intros row [c Hrow] ->. discriminate.
  - intros (mlp & ty & Hmlp & Hty & Hrows).
    destruct (predict_variable_spec self dataset var mlp ty Hmlp Hty Hrows)
      as (p & -> & _). eauto.
Qed.

(** [predict] raises exactly when the dataset is empty, a variable has no
    head or no declared type, or a categorical head returns an empty row of
    logits. *)
Theorem predict_defined_iff self dataset :
  is_Some (predict self dataset) <->
  items dataset <> [] /\ spec.heads_ready self dataset.
Proof.
  split.
  - intros [[s predictions] Hp]. unfold predict in Hp. cbv zeta in Hp.
    destruct (items dataset) as [|d0 rest] eqn:Hitems.
    { unfold DataLoader.first_batch in Hp. simpl in Hp. discriminate. }
    split; [discriminate|]. rewrite <- Hitems in Hp.
    rewrite first_batch_all in Hp by (rewrite Hitems; discriminate).
    simpl in Hp.
    match type of Hp with
    | context [foldl ?f ?a ?l] => destruct (foldl f a l) as [m|] eqn:Hfold
    end; [|discriminate].
    destruct (collect_insert_inv
                (predict_variable (eval self)
                   (forward (eval self) (items dataset)))
                (fun _ p => p) _ _ Hfold) as [Hg _].
    intros var Hvar. apply predict_variable_is_Some, Hg. exact Hvar.
  - intros [Hne Hready].
    destruct (predict_spec self dataset Hne Hready) as (p & -> & _). eauto.
Qed.

(** The predictions have one entry per variable of the model and no other
    key. *)
Theorem predict_one_entry_per_variable self dataset s predictions :
  predict self dataset = Some (s, predictions) ->
  forall var, is_Some (predictions !! var) <-> var ∈ variables self.
Proof.
  intros Hp var. unfold predict in Hp. cbv zeta in Hp.
  destruct (DataLoader.first_batch _ _) as [batch|]; [|discriminate].
  simpl in Hp.
  match type of Hp with
  | context [foldl ?f ?a ?l] => destruct (foldl f a l) as [m|] eqn:Hfold
  end; [|discriminate].
  simpl in Hp. injection Hp as _ <-.
  destruct (collect_insert_inv
              (predict_variable (eval self) (forward (eval self) batch))
              (fun _ p => p) _ _ Hfold) as [Hg Hout].
  destruct (collect_insert
              (predict_variable (eval self) (forward (eval self) batch))
              (fun _ p => p) (variables self) Hg) as (m' & Hfold' & Hlook).
  simpl in Hfold'. assert (m' = m) as -> by congruence.
  split.
  - intros Hsome. destruct (decide (var ∈ variables self)) as [Hin|Hnin];
      [exact Hin|].
    rewrite (Hout var Hnin) in Hsome. destruct Hsome as [? ?]. discriminate.
  - intros Hin. rewrite (Hlook var Hin).
    destruct (Hg var Hin) as [p ->]. simpl. eauto.
Qed.

Lemma mixed_predict :
  exists predictions,
    predict example.mixed example.mixed_dataset =
    Some (eval example.mixed, predictions).
Proof.
  destruct (predict_spec example.mixed example.mixed_dataset)
    as (predictions & H & _);
    [discriminate|exact mixed_heads_ready|eauto].
Qed.

Lemma predict_one_entry_per_variable_witness :
  exists predictions,
    predict example.mixed example.mixed_dataset =
      Some (eval example.mixed, predictions) /\
    is_Some (predictions !! "c").
Proof.
  destruct mixed_predict as (predictions & H).
  exists predictions. split; [exact H|].
  apply (predict_one_entry_per_variable _ _ _ _ H "c"). right. left.
Defined.

(** For embeddings whose rows all have the width of the first, as the rows
    of a tensor have, [transform] raises exactly when the dataset is empty
    or the number of sample identifiers differs from the number of embedding
    rows. *)
Theorem transform_defined_iff self dataset :
  Forall (fun row =>
            length row
            = np.shape1 (gnn_forward (encoders self) false (items dataset)))
         (gnn_forward (encoders self) false (items dataset)) ->
  is_Some (transform self dataset) <->
  items dataset <> [] /\
  length (samples dataset)
  = length (gnn_forward (encoders self) false (items dataset)).
Proof.
  intros Hrect. unfold transform. cbv zeta.
  destruct (items dataset) as [|d0 rest] eqn:Hitems.
  { unfold DataLoader.first_batch. simpl. split.
    - intros [? ?]. discriminate.
    - intros [H _]. contradiction. }
  rewrite <- Hitems in *.
  rewrite first_batch_all by (rewrite Hitems; discriminate). simpl.
  set (E := gnn_forward (encoders self) false (items dataset)) in *.
  unfold pd.new_DataFrame.
  assert (Hall : forallb (fun row => (length row =? length
                    (map (fun dim => "E" +:+ pretty dim)
                         (seq 0 (np.shape1 E))))%nat) E = true).
  { apply forallb_forall. intros row Hin. apply Nat.eqb_eq.
    rewrite length_map, length_seq. rewrite Forall_forall in Hrect.
    apply Hrect. now apply list_elem_of_In. }
  rewrite Hall.
  destruct (decide (length (samples dataset) = length E)) as [Hlen|Hlen].
  - split; [|eauto]. intros _. split; [rewrite Hitems; discriminate|].
    exact Hlen.
  - split; [intros [? ?]; discriminate|]. intros [_ H]. contradiction.
Qed.

Lemma transform_defined_iff_witness :
  is_Some (transform example.mixed example.mixed_dataset).
Proof.
  apply (transform_defined_iff example.mixed example.mixed_dataset).
  - repeat constructor.
  - split; [discriminate|reflexivity].
Defined.

(** ** The predicted class *)

Lemma argmax_from_spec (b : R) (best_i i : nat) (l : list R) :
  (np.argmax_from best_i (Fin b) i (map Fin l) = best_i /\
   forall v, v ∈ l -> (v <= b)%R) \/
  exists k m,
    np.argmax_from best_i (Fin b) i (map Fin l) = (i + k)%nat /\
    l !! k = Some m /\ (b < m)%R /\
    (forall v, v ∈ l -> (v <= m)%R) /\
    forall j v, (j < k)%nat -> l !! j = Some v -> (v < m)%R.
Proof.
  revert b best_i i. induction l as [|a l IH]; intros b best_i i.
  - left. split; [reflexivity|]. intros v Hv. inversion Hv.
  - cbn [map np.argmax_from]. unfold np.better. simpl. unfold Rltb.
    destruct (Rlt_dec b a) as [Hlt|Hge].
    + destruct (IH a i (S i)) as [[Hr Hall]|(k & m & Hr & Hk & Hm & Hall & Hj)].
      * right. exists 0%nat, a. rewrite Hr. split; [lia|].
        split; [reflexivity|]. split; [exact Hlt|]. split.
        -- intros v Hv. apply elem_of_cons in Hv as [->|Hv]; [lra|].
           now apply Hall.
        -- intros j v Hj. lia.
      * right. exists (S k), m. rewrite Hr. split; [lia|].
        split; [exact Hk|]. split; [lra|]. split.
        -- intros v Hv. apply elem_of_cons in Hv as [->|Hv]; [lra|].
           now apply Hall.
        -- intros [|j] v Hlt' Hv; simpl in Hv.
           ++ injection Hv as <-. exact Hm.
           ++ apply (Hj j v); [lia|exact Hv].
    + destruct (IH b best_i (S i))
        as [[Hr Hall]|(k & m & Hr & Hk & Hm & Hall & Hj)].
      * left. split; [exact Hr|]. intros v Hv.
        apply elem_of_cons in Hv as [->|Hv]; [lra|]. now apply Hall.
      * right. exists (S k), m. rewrite Hr. split; [lia|].
        split; [exact Hk|]. split; [exact Hm|]. split.
        -- intros v Hv. apply elem_of_cons in Hv as [->|Hv]; [lra|].
           now apply Hall.
        -- intros [|j] v Hlt' Hv; simpl in Hv.
           ++ injection Hv as <-. lra.
           ++ apply (Hj j v); [lia|exact Hv].
Qed.

Lemma argmax_first_maximum (row : list R) :
  row <> [] ->
  exists c m,
    np.argmax (map Fin row) = Some c /\
    row !! c = Some m /\
    (forall v, v ∈ row -> (v <= m)%R) /\
    forall j v, (j < c)%nat -> row !! j = Some v -> (v < m)%R.
Proof.
  destruct row as [|a l]; [contradiction|]. intros _. simpl.
  destruct (argmax_from_spec a 0 1 l)
    as [[Hr Hall]|(k & m & Hr & Hk & Hm & Hall & Hj)].
  - exists 0%nat, a. rewrite Hr. split; [reflexivity|].
    split; [reflexivity|]. split.
    + intros v Hv. apply elem_of_cons in Hv as [->|Hv]; [lra|].
      now apply Hall.
    + intros j v Hj. lia.
  - exists (S k), m. rewrite Hr. split; [reflexivity|].
    split; [exact Hk|]. split.
    + intros v Hv. apply elem_of_cons in Hv as [->|Hv]; [lra|].
      now apply Hall.
    + intros [|j] v Hlt Hv; simpl in Hv.
      * injection Hv as <-. exact Hm.
      * apply (Hj j v); [lia|exact Hv].
Qed.

(** For a categorical variable whose logits are numbers, the class that
    [predict] reports for a sample is the position of the largest logit of
    its row, the first one when several are largest. *)
Theorem predicted_class_is_first_maximum self
    (outputs : gmap string matrix) var (rows : list (list R)) :
  variable_types self !! var = Some "categorical" ->
  outputs !! var = Some (map (map Fin) rows) ->
  Forall (fun row => row <> []) rows ->
  exists classes,
    predict_variable self outputs var = Some (Classes classes) /\
    Forall2 (fun row c =>
               exists m, row !! c = Some m /\
                         (forall v, v ∈ row -> (v <= m)%R) /\
                         forall j v, (j < c)%nat -> row !! j = Some v ->
                                     (v < m)%R)
            rows classes.
Proof.
  intros Hty Hout Hrows. unfold predict_variable. rewrite Hout. simpl.
  rewrite Hty. simpl. clear Hout.
  induction Hrows as [|row rows Hne _ (classes & Hc & Hall)].
  - exists []. split; [reflexivity|constructor].
  - destruct (argmax_first_maximum row Hne) as (c & m & Harg & Hm).
    destruct (mapM np.argmax (map (map Fin) rows)) as [cs|] eqn:Hcs;
      [|discriminate].
    simpl in Hc. injection Hc as <-.
    exists (c :: cs). cbn [map mapM]. rewrite Harg, Hcs. simpl.
    split; [reflexivity|]. constructor; [eauto|exact Hall].
Qed.

Lemma predicted_class_is_first_maximum_witness :
  exists classes,
    predict_variable example.mixed {["c" := map (map Fin) [[0; 1]; [2; 2]]%R]}
                     "c" = Some (Classes classes).
Proof.
  destruct (predicted_class_is_first_maximum
              example.mixed {["c" := map (map Fin) [[0; 1]; [2; 2]]%R]}
              "c" [[0; 1]; [2; 2]]%R) as (classes & H & _).
  - reflexivity.
  - reflexivity.
  - repeat constructor; discriminate.
  - exists classes. exact H.
Defined.

(** ** Evaluation of the predictions *)

Lemma kept_labels {A} (f : scalar -> bool) (t : list A) (y : vector) :
  length t = length y ->
  map snd (spec.kept f t y) = filter (fun a => Is_true (f a)) y.
Proof.
  revert y. induction t as [|p t IH]; intros [|a y] Hlen; try discriminate;
    [reflexivity|].
  injection Hlen as Hlen. unfold spec.kept in *. cbn [zip zip_with].
  rewrite !filter_cons. simpl. destruct (f a); simpl; now rewrite IH.
Qed.

Lemma zip_fst_snd {A B} (K : list (A * B)) : zip (map fst K) (map snd K) = K.
Proof.
  induction K as [|[p t] K IH]; [reflexivity|]. simpl. now rewrite IH.
Qed.

(** The evaluation in [main] drops the samples whose test label is
    not-a-number and only those: the labels it passes on are the other
    labels in their order, no more and no fewer, each with the prediction of
    its sample, so a label that carries the missing code -1 is evaluated
    like a class. *)
Theorem evaluation_drops_nan_labels_only {A} (labels : vector)
    (y_pred : list A) :
  length y_pred = length labels ->
  exists y p,
    main.evaluation_inputs labels y_pred = Some (y, p) /\
    y = filter (fun a => isnan a = false) labels /\
    zip p y = filter (fun s => isnan s.2 = false) (zip y_pred labels) /\
    length p = length y /\
    (Fin (-1) ∈ labels -> Fin (-1) ∈ y).
Proof.
  intros Hlen. unfold main.evaluation_inputs. cbv zeta.
  unfold torch.lnot, torch.isnan. rewrite map_map.
  set (f := fun a : scalar => negb (isnan a)).
  pose proof (select_labels f (fun a => a) y_pred labels Hlen) as Hy.
  rewrite (map_ext (fun a => a) Datatypes.id), map_id in Hy by reflexivity.
  rewrite Hy, (select_zip f y_pred labels Hlen). simpl.
  assert (Hf : forall a, Is_true (f a) <-> isnan a = false).
  { intros a. unfold f. destruct (isnan a); simpl; split;
      try congruence; try contradiction; auto. }
  assert (Hlabels : map (fun s : A * scalar => s.2)
                        (spec.kept f y_pred labels)
                    = filter (fun a => isnan a = false) labels).
  { change (map (fun s : A * scalar => s.2) (spec.kept f y_pred labels))
      with (map snd (spec.kept f y_pred labels)).
    rewrite (kept_labels f y_pred labels Hlen). apply list_filter_iff.
    exact Hf. }
  exists (map (fun s => s.2) (spec.kept f y_pred labels)),
         (map fst (spec.kept f y_pred labels)).
  split; [reflexivity|]. split; [exact Hlabels|]. split; [|split].
  - change (map (fun s : A * scalar => s.2) (spec.kept f y_pred labels))
      with (map snd (spec.kept f y_pred labels)).
    rewrite zip_fst_snd. unfold spec.kept. apply list_filter_iff.
    intros s. apply Hf.
  - now rewrite !length_map.
  - intros Hin. rewrite Hlabels. apply list_elem_of_filter.
    split; [reflexivity|exact Hin].
Qed.

Lemma evaluation_drops_nan_labels_only_witness :
  exists y p,
    main.evaluation_inputs [Fin 1; NaN; Fin (-1)] [10; 11; 12]%nat
    = Some (y, p) /\
    y = filter (fun a => isnan a = false) [Fin 1; NaN; Fin (-1)] /\
    zip p y = filter (fun s => isnan s.2 = false)
                     (zip [10; 11; 12]%nat [Fin 1; NaN; Fin (-1)]).
Proof.
  destruct (evaluation_drops_nan_labels_only
              [Fin 1; NaN; Fin (-1)] [10; 11; 12]%nat)
    as (y & p & H & Hy & Hz & _).
  - reflexivity.
  - exists y, p. split; [exact H|]. split; [exact Hy|exact Hz].
Defined.

(** On three samples labelled 1, not-a-number and -1 the evaluation
    receives the labels 1 and -1 with the first and the third prediction. *)
Example evaluation_inputs_example :
  main.evaluation_inputs [Fin 1; NaN; Fin (-1)] [10; 11; 12]%nat
  = Some ([Fin 1; Fin (-1)], [10; 12]%nat).
Proof. reflexivity. Qed.

(** ** Class codes and the width of the logits *)

Lemma nll_is_Some (row : vector) (t : Z) :
  is_Some (F.nll row t) <-> (0 <= t < Z.of_nat (length row))%Z.
Proof.
  unfold F.nll. destruct (decide (0 <= t)%Z) as [Hpos|Hneg].
  - destruct (row !! Z.to_nat t) as [z|] eqn:Hz; simpl.
    + apply lookup_lt_Some in Hz. split; [intros _; lia|eauto].
    + apply lookup_ge_None in Hz. split; [intros [? ?]; discriminate|lia].
  - split; [intros [? ?]; discriminate|lia].
Qed.

Lemma nll_all_is_Some (K : list (vector * Z)) :
  is_Some (F.nll_all (map fst K) (map snd K)) <->
  Forall (fun s => s.2 = F.ignore_index \/
                   (0 <= s.2 < Z.of_nat (length s.1))%Z) K.
Proof.
  induction K as [|[row t] K IH]; simpl.
  - split; [constructor|eauto].
  - rewrite Forall_cons. rewrite <- IH. simpl.
    destruct (F.nll_all (map fst K) (map snd K)) as [rest|]; simpl.
    + destruct (decide (t = F.ignore_index)) as [->|Hne].
      * split; [intros _; split; [now left|eauto]|eauto].
      * rewrite <- nll_is_Some.
        destruct (F.nll row t) as [l|]; simpl.
        -- split; [intros _; split; [right|]; eauto|eauto].
        -- split; [intros [? ?]; discriminate|].
           intros [[?|[? ?]] _]; [contradiction|discriminate].
    + split; [intros [? ?]; discriminate|].
      intros [_ [? ?]]. discriminate.
Qed.

(** With logits of [n] classes, the loss of a categorical variable is
    defined exactly when every code other than the missing code -1 is a
    class index below [n] or the ignored index -100: a code from a numbering
    with gaps makes the step raise. *)
Theorem categorical_loss_defined_iff self var ty (codes : list Z)
    (logits : matrix) (n : nat) :
  variable_types self !! var = Some ty ->
  ty <> "numerical" ->
  length logits = length codes ->
  Forall (fun row => length row = n) logits ->
  is_Some (compute_loss self var (spec.encode codes) logits) <->
  forall c, c ∈ codes ->
    c = spec.missing \/ c = F.ignore_index \/ (0 <= c < Z.of_nat n)%Z.
Proof.
  intros Hty Hne Hlen Hwidth.
  rewrite (compute_loss_categorical self var ty codes logits Hty Hne Hlen).
  unfold spec.categorical_loss.
  assert (Hsome : is_Some (F.cross_entropy
                             (map fst (spec.kept spec.present logits codes))
                             (map snd (spec.kept spec.present logits codes)))
                  <-> forall c, c ∈ codes ->
                        c = spec.missing \/ c = F.ignore_index \/
                        (0 <= c < Z.of_nat n)%Z).
  { unfold F.cross_entropy.
    transitivity (is_Some (F.nll_all
                    (map fst (spec.kept spec.present logits codes))
                    (map snd (spec.kept spec.present logits codes)))).
    { destruct (F.nll_all _ _); simpl; split; intros [? ?];
        try discriminate; eauto. }
    rewrite nll_all_is_Some, Forall_forall. split.
    - intros H c Hc. destruct (decide (c = spec.missing)) as [|Hpres];
        [now left|right].
      apply list_elem_of_lookup in Hc as [i Hi].
      destruct (lookup_lt_is_Some_2 logits i) as [row Hrow].
      { rewrite Hlen. apply lookup_lt_is_Some_1. eauto. }
      assert (Hin : (row, c) ∈ spec.kept spec.present logits codes).
      { apply kept_lookup. exists i. simpl. repeat split; try assumption.
        unfold spec.present. apply negb_true_iff, Z.eqb_neq. exact Hpres. }
      specialize (H _ Hin). simpl in H.
      rewrite Forall_forall in Hwidth.
      rewrite (Hwidth row) in H
        by (apply list_elem_of_lookup; eauto).
      exact H.
    - intros H [row c] Hin.
      apply kept_lookup in Hin as (i & Hrow & Hc & Hpres). simpl in *.
      rewrite Forall_forall in Hwidth.
      rewrite (Hwidth row) by (apply list_elem_of_lookup; eauto).
      destruct (H c) as [Hm|Hok]; [apply list_elem_of_lookup; eauto| |exact Hok].
      unfold spec.present in Hpres. apply negb_true_iff, Z.eqb_neq in Hpres.
      contradiction. }
  destruct (spec.kept spec.present logits codes) as [|s K] eqn:HK.
  - split; [|eauto]. intros _. apply Hsome. simpl. eauto.
  - exact Hsome.
Qed.

Lemma categorical_loss_defined_iff_witness :
  compute_loss example.mixed "c" (spec.encode [0; 2]%Z)
               [[Fin 0; Fin 1]; [Fin 0; Fin 1]] = None.
Proof.
  destruct (compute_loss example.mixed "c" (spec.encode [0; 2]%Z)
               [[Fin 0; Fin 1]; [Fin 0; Fin 1]]) as [loss|] eqn:Hloss;
    [|reflexivity].
  exfalso.
  assert (Hsome : is_Some (compute_loss example.mixed "c"
                             (spec.encode [0; 2]%Z)
                             [[Fin 0; Fin 1]; [Fin 0; Fin 1]]))
    by (rewrite Hloss; eauto).
  assert (Hall := proj1 (categorical_loss_defined_iff
                           example.mixed "c" "categorical" [0; 2]%Z
                           [[Fin 0; Fin 1]; [Fin 0; Fin 1]] 2
                           eq_refl ltac:(discriminate) eq_refl
                           ltac:(repeat constructor)) Hsome).
  destruct (Hall 2%Z) as [H|[H|H]];
    [right; left|discriminate|discriminate|lia].
Defined.
